(** * remix-server-runtime: the data invocation layer

    A shallow embedding of [packages/remix-server-runtime/data.ts]
    ([callRouteAction], [callRouteLoader], their [RR] variants,
    [stripIndexParam], [stripDataParam], [extractData]) together with the
    parts of the web platform the file calls into ([URLSearchParams],
    [Headers], [Request], [Response], a regular-expression test), and a
    model of the abort governor of the streaming assembler. *)

From Stdlib Require Import String Ascii List Bool ZArith Lia Arith Permutation.
Import ListNotations.

Local Open Scope list_scope.
Local Open Scope string_scope.

Set Implicit Arguments.

(* ================================================================== *)
(** ** JavaScript strings *)
(* ================================================================== *)

Module JsString.

(** [if (s)] on a string: the empty string is the only falsy one. *)
Definition truthy (s : string) : bool :=
  match s with
  | EmptyString => false
  | String _ _ => true
  end.

(** ASCII lower-casing of one byte, as used for header names. *)
Definition lower_ascii (c : ascii) : ascii :=
  let n := nat_of_ascii c in
  if (65 <=? n)%nat && (n <=? 90)%nat then ascii_of_nat (n + 32) else c.

Fixpoint toLowerCase (s : string) : string :=
  match s with
  | EmptyString => EmptyString
  | String c s' => String (lower_ascii c) (toLowerCase s')
  end.

(** [s.startsWith(p)], returning what follows the prefix. *)
Fixpoint strip_prefix (p s : string) : option string :=
  match p, s with
  | EmptyString, _ => Some s
  | String a p', String b s' =>
      if Ascii.eqb a b then strip_prefix p' s' else None
  | String _ _, EmptyString => None
  end.

(** [hay.includes(needle)]. *)
Fixpoint includes (needle hay : string) : bool :=
  match strip_prefix needle hay with
  | Some _ => true
  | None =>
      match hay with
      | EmptyString => false
      | String _ hay' => includes needle hay'
      end
  end.

(** [parts.join(sep)]. *)
Fixpoint join (sep : string) (parts : list string) : string :=
  match parts with
  | [] => ""
  | [p] => p
  | p :: rest => p ++ sep ++ join sep rest
  end.

End JsString.

(* ================================================================== *)
(** ** URLSearchParams and URL *)
(* ================================================================== *)

(** The query of a URL is an ordered list of name/value pairs in which a
    name may occur several times. *)
Definition URLSearchParams := list (string * string).

Module SearchParams.

Definition getAll (name : string) (l : URLSearchParams) : list string :=
  map snd (filter (fun p => fst p =? name) l).

Definition delete (name : string) (l : URLSearchParams) : URLSearchParams :=
  filter (fun p => negb (fst p =? name)) l.

Definition append (name value : string) (l : URLSearchParams)
  : URLSearchParams :=
  (l ++ [(name, value)])%list.

Definition has (name : string) (l : URLSearchParams) : bool :=
  existsb (fun p => fst p =? name) l.

End SearchParams.

(** A URL is kept in parsed form: [new URL(request.url)] reads the record,
    [url.href] writes it back.  The query is the list of its decoded
    pairs; how [url.href] spells the query out again is not modelled, so
    statements about URLs are statements about decoded parameters. *)
Record URL := mkURL {
  origin : string;
  pathname : string;
  searchParams : URLSearchParams;
  hash : string
}.

Definition set_searchParams (u : URL) (q : URLSearchParams) : URL :=
  {| origin := origin u; pathname := pathname u;
     searchParams := q; hash := hash u |}.

(* ================================================================== *)
(** ** Headers *)
(* ================================================================== *)

(** A header list; names match without regard to ASCII case. *)
Definition Headers := list (string * string).

Module HeaderList.

Definition same_name (name : string) (h : string * string) : bool :=
  JsString.toLowerCase (fst h) =? JsString.toLowerCase name.

Definition has (name : string) (hs : Headers) : bool :=
  existsb (same_name name) hs.

(** [headers.get(name)]: [null] when absent, else the values joined by
    a comma and a space. *)
Definition get (name : string) (hs : Headers) : option string :=
  match filter (same_name name) hs with
  | [] => None
  | found => Some (JsString.join ", " (map snd found))
  end.

(** Replaces the value of the first header called [name]. *)
Fixpoint replace_first (name value : string) (hs : Headers) : Headers :=
  match hs with
  | [] => []
  | h :: rest =>
      if same_name name h
      then (fst h, value) :: filter (fun h' => negb (same_name name h')) rest
      else h :: replace_first name value rest
  end.

(** [headers.set(name, value)]. *)
Definition set (name value : string) (hs : Headers) : Headers :=
  if has name hs then replace_first name value hs
  else (hs ++ [(name, value)])%list.

End HeaderList.

(* ================================================================== *)
(** ** Request, Response and JavaScript values *)
(* ================================================================== *)

Record Request := mkRequest {
  method : string;
  url : URL;
  req_headers : Headers;
  req_body : option string
}.

(** [new Request(url.href, request)]: everything but the URL is taken
    from [init]. *)
Definition new_Request (u : URL) (init : Request) : Request :=
  {| method := method init; url := u;
     req_headers := req_headers init; req_body := req_body init |}.

(** The headers of a response are mutable when it was built with
    [new Response] or [json], and immutable when it is the result of
    [fetch], [Response.error()] or [Response.redirect()]. *)
Record Response := mkResponse {
  status : Z;
  statusText : string;
  headers : Headers;
  headersImmutable : bool;
  body : string
}.

(** The response with one header set and all else as it was. *)
Definition set_header (name value : string) (r : Response) : Response :=
  {| status := status r; statusText := statusText r;
     headers := HeaderList.set name value (headers r);
     headersImmutable := headersImmutable r; body := body r |}.

(** The values a handler can return or throw, and the errors the layer
    itself constructs. *)
Inductive JsValue : Type :=
| JUndefined
| JNull
| JData (payload : string)
| JString (text : string)
| JError (message : string)
| JTypeError
| JErrorResponse (code : Z) (text : string) (data : JsValue) (internal : bool)
| JResponse (r : Response).

(** Parameters and load context are passed through untouched. *)
Definition Params := list (string * string).
Definition AppLoadContext := list (string * JsValue).

Record DataFunctionArgs := mkArgs {
  request : Request;
  context : AppLoadContext;
  params : Params
}.

(* ================================================================== *)
(** ** Completions: a value, or a thrown value *)
(* ================================================================== *)

Inductive Completion (A : Type) : Type :=
| Normal (a : A)
| Throw (e : JsValue).

Arguments Normal {A} a.
Arguments Throw {A} e.

Definition bind {A B} (c : Completion A) (k : A -> Completion B)
  : Completion B :=
  match c with
  | Normal a => k a
  | Throw e => Throw e
  end.

(** [try { c } catch (error) { handler error }]. *)
Definition try_catch {A} (c : Completion A) (handler : JsValue -> Completion A)
  : Completion A :=
  match c with
  | Normal a => Normal a
  | Throw e => handler e
  end.

Notation "x <- c ;; k" := (bind c (fun x => k))
  (at level 61, c at next level, right associativity).

(** [response.headers.set(name, value)] updates the response in place,
    and throws a [TypeError] when the headers are immutable. *)
Definition headers_set (name value : string) (r : Response)
  : Completion Response :=
  if headersImmutable r then Throw JTypeError
  else Normal (set_header name value r).

(** An awaited loader or action. *)
Definition DataFunction := DataFunctionArgs -> Completion JsValue.
Definition ActionFunction := DataFunction.
Definition LoaderFunction := DataFunction.

(* ================================================================== *)
(** ** data.ts: request normalisation *)
(* ================================================================== *)

Definition stripIndexParam (request : Request) : Request :=
  let url0 := url request in
  let indexValues := SearchParams.getAll "index" (searchParams url0) in
  let url1 :=
    set_searchParams url0 (SearchParams.delete "index" (searchParams url0)) in
  let indexValuesToKeep :=
    fold_left
      (fun keep indexValue =>
         if JsString.truthy indexValue
         then (keep ++ [indexValue])%list else keep)
      indexValues [] in
  let url2 :=
    fold_left
      (fun u toKeep =>
         set_searchParams u
           (SearchParams.append "index" toKeep (searchParams u)))
      indexValuesToKeep url1 in
  new_Request url2 request.

Definition stripDataParam (request : Request) : Request :=
  let url0 := url request in
  let url1 :=
    set_searchParams url0 (SearchParams.delete "_data" (searchParams url0)) in
  new_Request url1 request.

(* ================================================================== *)
(** ** The [./responses] module *)
(* ================================================================== *)

(** Modelled from the spec: [./responses] is not among the sources.  The
    spec speaks of "a value that is itself a structured response object";
    in [JsValue] those are the [JResponse] values, and the type guard
    hands the response back. *)
Definition asResponse (value : JsValue) : option Response :=
  match value with
  | JResponse r => Some r
  | _ => None
  end.

Definition isResponse (value : JsValue) : bool :=
  match asResponse value with
  | Some _ => true
  | None => false
  end.

(** The two other imports of [./responses] are taken as an interface:
    which responses count as redirects, and how [json] builds a response
    from data. *)
Class Responses := {
  isRedirectResponse : Response -> bool;
  json : JsValue -> Response
}.

(* ================================================================== *)
(** ** data.ts: calling loaders and actions *)
(* ================================================================== *)

Definition dquote : string := String (ascii_of_nat 34) EmptyString.

(** [result === undefined]. *)
Definition is_undefined (v : JsValue) : bool :=
  match v with
  | JUndefined => true
  | _ => false
  end.

(** [if (isRemixRouterRequest)] on an optional boolean. *)
Definition flag_set (flag : option bool) : bool :=
  match flag with
  | Some true => true
  | _ => false
  end.

(** [isResponse(result) ? result : json(result)]. *)
Definition toResponse {responses : Responses} (result : JsValue) : Response :=
  match asResponse result with
  | Some response => response
  | None => json result
  end.

Definition callRouteAction {responses : Responses}
    (loadContext : AppLoadContext) (routeId : string)
    (action : option ActionFunction) (params : Params) (request : Request)
    (isRemixRouterRequest : option bool) : Completion Response :=
  match action with
  | None =>
      let pathname := pathname (url request) in
      let msg :=
        "You made a " ++ method request ++ " request to " ++ dquote
          ++ pathname ++ dquote ++ " but did not provide "
          ++ "an `action` for route " ++ dquote ++ routeId ++ dquote
          ++ ", so there is no way to handle the request." in
      Throw (JErrorResponse 405 "Method Not Allowed" (JError msg) true)
  | Some action =>
      result <-
        try_catch
          (action {| request := stripDataParam (stripIndexParam request);
                     context := loadContext;
                     params := params |})
          (fun error =>
             match asResponse error with
             | None => Throw error
             | Some response =>
                 if negb (isRedirectResponse response) then
                   tagged <- headers_set "X-Remix-Catch" "yes" response ;;
                   if flag_set isRemixRouterRequest
                   then Throw (JResponse tagged)
                   else Normal (JResponse tagged)
                 else Normal (JResponse response)
             end) ;;
      if is_undefined result then
        Throw (JError
                 ("You defined an action for route " ++ dquote ++ routeId
                    ++ dquote ++ " but didn't return "
                    ++ "anything from your `action` function. Please return a value or `null`."))
      else Normal (toResponse result)
  end.

Definition callRouteLoader {responses : Responses}
    (loadContext : AppLoadContext) (routeId : string)
    (loader : option LoaderFunction) (params : Params) (request : Request)
    (isRemixRouterRequest : option bool) : Completion Response :=
  match loader with
  | None =>
      let pathname := pathname (url request) in
      let msg :=
        "You made a " ++ method request ++ " request to " ++ dquote
          ++ pathname ++ dquote ++ " but did not provide "
          ++ "a `loader` for route " ++ dquote ++ routeId ++ dquote
          ++ ", so there is no way to handle the request." in
      Throw (JErrorResponse 405 "Method Not Allowed" (JError msg) true)
  | Some loader =>
      result <-
        try_catch
          (loader {| request := stripDataParam (stripIndexParam request);
                     context := loadContext;
                     params := params |})
          (fun error =>
             match asResponse error with
             | None => Throw error
             | Some response =>
                 if negb (isRedirectResponse response) then
                   tagged <- headers_set "X-Remix-Catch" "yes" response ;;
                   if flag_set isRemixRouterRequest
                   then Throw (JResponse tagged)
                   else Normal (JResponse tagged)
                 else Normal (JResponse response)
             end) ;;
      if is_undefined result then
        Throw (JError
                 ("You defined a loader for route " ++ dquote ++ routeId
                    ++ dquote ++ " but didn't return "
                    ++ "anything from your `loader` function. Please return a value or `null`."))
      else Normal (toResponse result)
  end.

Definition callRouteActionRR {responses : Responses}
    (loadContext : AppLoadContext) (action : ActionFunction)
    (params : Params) (request : Request) (routeId : string)
    : Completion Response :=
  result <-
    action {| request := stripDataParam (stripIndexParam request);
              context := loadContext;
              params := params |} ;;
  if is_undefined result then
    Throw (JError
             ("You defined an action for route " ++ dquote ++ routeId
                ++ dquote ++ " but didn't return "
                ++ "anything from your `action` function. Please return a value or `null`."))
  else Normal (toResponse result).

Definition callRouteLoaderRR {responses : Responses}
    (loadContext : AppLoadContext) (loader : LoaderFunction)
    (params : Params) (request : Request) (routeId : string)
    : Completion Response :=
  result <-
    loader {| request := stripDataParam (stripIndexParam request);
              context := loadContext;
              params := params |} ;;
  if is_undefined result then
    Throw (JError
             ("You defined a loader for route " ++ dquote ++ routeId
                ++ dquote ++ " but didn't return "
                ++ "anything from your `loader` function. Please return a value or `null`."))
  else Normal (toResponse result).

(** The arguments all four entry points hand to the handler. *)
Definition handlerArgs (loadContext : AppLoadContext) (pathParams : Params)
    (incoming : Request) : DataFunctionArgs :=
  {| request := stripDataParam (stripIndexParam incoming);
     context := loadContext;
     params := pathParams |}.

(** Two descriptions of the query after normalisation.  [filtered_query]
    is the original query with every [_data] pair and every [index] pair
    of empty value taken out, all else staying in place.
    [reordered_query] lists the pairs that are neither [index] nor
    [_data] first and the [index] pairs of non-empty value after them. *)
Definition is_internal (p : string * string) : bool :=
  (fst p =? "_data") || ((fst p =? "index") && (snd p =? "")).

Definition filtered_query (q : URLSearchParams) : URLSearchParams :=
  filter (fun p => negb (is_internal p)) q.

Definition reordered_query (q : URLSearchParams) : URLSearchParams :=
  (filter (fun p => negb (fst p =? "index") && negb (fst p =? "_data")) q
   ++ filter (fun p => (fst p =? "index") && JsString.truthy (snd p)) q)%list.

(* ================================================================== *)
(** ** data.ts: extractData *)
(* ================================================================== *)

(** The regular expression [/\bapplication\/json\b/], run the way
    [RegExp.prototype.test] does: try a match at every position, left to
    right.  [\b] holds between two positions exactly one of which is a
    word character ([A-Za-z0-9_]); outside the string counts as a
    non-word character. *)
Module ApplicationJsonRegExp.

Definition is_word_char (c : ascii) : bool :=
  let n := nat_of_ascii c in
  ((48 <=? n) && (n <=? 57) || (65 <=? n) && (n <=? 90)
   || (97 <=? n) && (n <=? 122) || (n =? 95))%nat.

Definition word_at (c : option ascii) : bool :=
  match c with
  | Some c => is_word_char c
  | None => false
  end.

Definition word_boundary (prev next : option ascii) : bool :=
  xorb (word_at prev) (word_at next).

Definition head (s : string) : option ascii :=
  match s with
  | EmptyString => None
  | String c _ => Some c
  end.

Definition literal : string := "application/json".

(** A match that starts right here, [prev] being the character before. *)
Definition match_here (prev : option ascii) (s : string) : bool :=
  word_boundary prev (head s)
  && match JsString.strip_prefix literal s with
     | Some rest => word_boundary (Some "n"%char) (head rest)
     | None => false
     end.

Fixpoint test_from (prev : option ascii) (s : string) : bool :=
  match_here prev s
  || match s with
     | EmptyString => false
     | String c s' => test_from (Some c) s'
     end.

Definition test (s : string) : bool := test_from None s.

End ApplicationJsonRegExp.

(** [JSON.parse], which [response.json()] applies to the body, belongs to
    the platform. *)
Class Json := {
  JSON_parse : string -> Completion JsValue
}.

Definition response_json {platform : Json} (response : Response) : Completion JsValue :=
  JSON_parse (body response).

Definition response_text (response : Response) : Completion JsValue :=
  Normal (JString (body response)).

Definition extractData {platform : Json} (response : Response) : Completion JsValue :=
  let contentType := HeaderList.get "Content-Type" (headers response) in
  match contentType with
  | Some contentType =>
      if JsString.truthy contentType && ApplicationJsonRegExp.test contentType
      then response_json response
      else response_text response
  | None => response_text response
  end.

(** The claim's wording for the test above: the header value contains
    [application/json] as a token, that is, with no word character right
    before or right after it. *)
Fixpoint last_char (s : string) : option ascii :=
  match s with
  | EmptyString => None
  | String c EmptyString => Some c
  | String _ s' => last_char s'
  end.

(** The character before a position that lies [before] into the string,
    [prev] being the character before the string itself. *)
Definition last_or (prev : option ascii) (before : string) : option ascii :=
  match last_char before with
  | Some c => Some c
  | None => prev
  end.

Definition contains_json_token (contentType : string) : Prop :=
  exists before after,
    contentType = before ++ "application/json" ++ after
    /\ ApplicationJsonRegExp.word_at (last_char before) = false
    /\ ApplicationJsonRegExp.word_at (ApplicationJsonRegExp.head after) = false.

(* ================================================================== *)
(** ** The streaming assembler and its abort governor *)
(* ================================================================== *)

(** Modelled from the spec: the assembler that streams deferred values and
    the governor that aborts it live in the rendering runtime, which is
    not among the sources (only an end-to-end test and the
    [setTimeout(abort, ABORT_DELAY)] call of the entry file are).  The
    model follows sections 3, 4.2 and 4.4 of the specification: the
    phases [Building -> ShellReady -> Streaming -> {Completed, Aborted}],
    one chunk per settled field in settlement order, a timer armed when
    streaming begins, and an abort that settles every field still pending
    as rejected with the [Aborted] error and then goes on as if they had
    all rejected by themselves.  Time is counted in ticks of the host's
    clock. *)
Module Assembler.

Definition FieldPath := string.

Inductive ErrorInfo : Type :=
| AppError (message : string)
| Aborted.

Inductive Settlement : Type :=
| Resolved (value : string)
| Rejected (err : ErrorInfo).

Inductive Chunk : Type :=
| InitialShell
| ResolvedValue (fieldPath : FieldPath) (value : string)
| RejectedValue (fieldPath : FieldPath) (err : ErrorInfo).

Inductive Phase : Type :=
| Building
| ShellReady
| Streaming
| Completed
| AbortedPhase.

Record State := mkState {
  phase : Phase;
  pending : list FieldPath;
  chunks : list Chunk;
  transport_open : bool;
  timer_armed : bool;
  elapsed : nat;
  abortDelay : nat
}.

Inductive Event : Type :=
| FlushShell
| BeginStreaming
| Settle (fieldPath : FieldPath) (outcome : Settlement)
| Cancel
| Tick.

Definition chunk_of (fp : FieldPath) (outcome : Settlement) : Chunk :=
  match outcome with
  | Resolved v => ResolvedValue fp v
  | Rejected e => RejectedValue fp e
  end.

Definition is_pending (fp : FieldPath) (s : State) : bool :=
  existsb (String.eqb fp) (pending s).

Definition drop_pending (fp : FieldPath) (l : list FieldPath)
  : list FieldPath :=
  filter (fun p => negb (p =? fp)) l.

(** [Completed] is entered, the transport closed and the timer disarmed
    as soon as nothing is pending. *)
Definition close_if_done (s : State) : State :=
  match pending s with
  | [] =>
      {| phase := Completed; pending := []; chunks := chunks s;
         transport_open := false; timer_armed := false;
         elapsed := elapsed s; abortDelay := abortDelay s |}
  | _ :: _ => s
  end.

(** A field settles.  Before streaming the value is folded into the
    shell; while streaming it is sent as one chunk; a field that is not
    pending (any more) changes nothing. *)
Definition settle (fp : FieldPath) (outcome : Settlement) (s : State)
  : State :=
  if is_pending fp s then
    match phase s with
    | Building | ShellReady =>
        {| phase := phase s; pending := drop_pending fp (pending s);
           chunks := chunks s; transport_open := transport_open s;
           timer_armed := timer_armed s;
           elapsed := elapsed s; abortDelay := abortDelay s |}
    | Streaming | AbortedPhase =>
        close_if_done
          {| phase := phase s; pending := drop_pending fp (pending s);
             chunks := (chunks s ++ [chunk_of fp outcome])%list;
             transport_open := transport_open s;
             timer_armed := timer_armed s;
             elapsed := elapsed s; abortDelay := abortDelay s |}
    | Completed => s
    end
  else s.

(** The abort: every field still pending is settled as rejected with
    [Aborted]. *)
Definition abort (s : State) : State :=
  match phase s with
  | Streaming =>
      close_if_done
        (fold_left
           (fun st fp => settle fp (Rejected Aborted) st)
           (pending s)
           {| phase := AbortedPhase; pending := pending s;
              chunks := chunks s; transport_open := transport_open s;
              timer_armed := false;
              elapsed := elapsed s; abortDelay := abortDelay s |})
  | _ => s
  end.

Definition advance_clock (s : State) : State :=
  {| phase := phase s; pending := pending s; chunks := chunks s;
     transport_open := transport_open s; timer_armed := timer_armed s;
     elapsed := S (elapsed s); abortDelay := abortDelay s |}.

Definition step (ev : Event) (s : State) : State :=
  match ev with
  | FlushShell =>
      match phase s with
      | Building =>
          {| phase := ShellReady; pending := pending s;
             chunks := (chunks s ++ [InitialShell])%list;
             transport_open := true; timer_armed := false;
             elapsed := elapsed s; abortDelay := abortDelay s |}
      | _ => s
      end
  | BeginStreaming =>
      match phase s with
      | ShellReady =>
          close_if_done
            {| phase := Streaming; pending := pending s;
               chunks := chunks s; transport_open := transport_open s;
               timer_armed := true;
               elapsed := 0; abortDelay := abortDelay s |}
      | _ => s
      end
  | Settle fp outcome => settle fp outcome s
  | Cancel => abort s
  | Tick =>
      let s' := advance_clock s in
      if timer_armed s' && (abortDelay s' <=? elapsed s')%nat
      then abort s' else s'
  end.

Definition run (evs : list Event) (s : State) : State :=
  fold_left (fun st ev => step ev st) evs s.

Definition aborted_chunks (fps : list FieldPath) : list Chunk :=
  map (fun fp => RejectedValue fp Aborted) fps.

(** The state of a stream that has completed after sending [sent]. *)
Definition completed_with (s : State) (sent : list Chunk) : State :=
  {| phase := Completed; pending := []; chunks := sent;
     transport_open := false; timer_armed := false;
     elapsed := elapsed s; abortDelay := abortDelay s |}.

(** A response under construction with the given deferred fields. *)
Definition initial (fields : list FieldPath) (delay : nat) : State :=
  {| phase := Building; pending := fields; chunks := [];
     transport_open := false; timer_armed := false;
     elapsed := 0; abortDelay := delay |}.

End Assembler.

(* ================================================================== *)
(** ** A concrete [./responses] and [JSON.parse] for running examples *)
(* ================================================================== *)

Definition redirectStatusCodes : list Z := [301; 302; 303; 307; 308]%Z.

Definition stringify (data : JsValue) : string :=
  match data with
  | JNull => "null"
  | JData payload => payload
  | JString text => dquote ++ text ++ dquote
  | _ => "{}"
  end.

Definition webResponses : Responses :=
  {| isRedirectResponse :=
       fun response => existsb (Z.eqb (status response)) redirectStatusCodes;
     json :=
       fun data =>
         {| status := 200; statusText := "OK";
            headers := [("Content-Type", "application/json; charset=utf-8")];
            headersImmutable := false;
            body := stringify data |} |}.

Definition opaqueJson : Json :=
  {| JSON_parse := fun text => Normal (JData text) |}.

Definition exampleRequest : Request :=
  {| method := "POST";
     url := {| origin := "http://localhost";
               pathname := "/projects";
               searchParams :=
                 [("index", ""); ("q", "1"); ("_data", "routes/projects");
                  ("index", "2")];
               hash := "" |};
     req_headers := [("Accept", "*/*")];
     req_body := Some "name=x" |}.

Definition teapot : Response :=
  {| status := 418; statusText := "I'm a teapot";
     headers := [("Content-Type", "text/plain")];
     headersImmutable := false; body := "short and stout" |}.

Definition seeOther : Response :=
  {| status := 303; statusText := "See Other";
     headers := [("Location", "/login")];
     headersImmutable := false; body := "" |}.



Definition throwsTeapot : DataFunction :=
  fun _ => Throw (JResponse teapot).

Definition throwsRedirect : DataFunction :=
  fun _ => Throw (JResponse seeOther).

Definition returnsNothing : DataFunction :=
  fun _ => Normal JUndefined.

(** A loader that answers with the names of the query parameters it can
    see. *)
Definition echoQuery : DataFunction :=
  fun args =>
    Normal (JData (JsString.join "&"
                     (map fst (searchParams (url (request args)))))).

(** Two deferred fields, streaming for one tick of an abort delay of
    three. *)
Definition streamingExample : Assembler.State :=
  Assembler.run
    [Assembler.FlushShell; Assembler.BeginStreaming; Assembler.Tick]
    (Assembler.initial ["user"; "comments"] 3).

(** A request whose query has a kept [index] pair before another pair. *)
Definition indexFirstRequest : Request :=
  {| method := "GET";
     url := {| origin := "http://localhost";
               pathname := "/";
               searchParams := [("index", "1"); ("a", "2")];
               hash := "" |};
     req_headers := [];
     req_body := None |}.

(** More handlers and responses for running examples. *)
Definition throwsError : DataFunction :=
  fun _ => Throw (JError "boom").

Definition vendorJson : Response :=
  {| status := 200; statusText := "OK";
     headers := [("content-type", "application/vnd.api+json")];
     headersImmutable := false;
     body := "{}" |}.

Definition cleanRequest : Request :=
  {| method := "GET";
     url := {| origin := "http://localhost";
               pathname := "/projects";
               searchParams := [("q", "1"); ("page", "2")];
               hash := "#top" |};
     req_headers := [("Accept", "*/*")];
     req_body := None |}.

(* ================================================================== *)
(** ** The deferred-streaming tests: splitting the document *)
(* ================================================================== *)

(** [String.prototype.indexOf] and [String.prototype.slice]; a string is
    its sequence of code units. *)
Module StringOps.

Fixpoint take (n : nat) (s : string) : string :=
  match n, s with
  | S n', String c s' => String c (take n' s')
  | _, _ => EmptyString
  end.

Fixpoint drop (n : nat) (s : string) : string :=
  match n, s with
  | S n', String _ s' => drop n' s'
  | _, _ => s
  end.

(** The position of the first occurrence, if there is one. *)
Fixpoint first_index (needle hay : string) : option nat :=
  match JsString.strip_prefix needle hay with
  | Some _ => Some 0
  | None =>
      match hay with
      | EmptyString => None
      | String _ hay' => option_map S (first_index needle hay')
      end
  end.

(** [hay.indexOf(needle)]: [-1] when there is no occurrence. *)
Definition indexOf (hay needle : string) : Z :=
  match first_index needle hay with
  | Some i => Z.of_nat i
  | None => (-1)%Z
  end.

(** A relative index made absolute: negative indices count from the end,
    and the result is kept within the string. *)
Definition clamp_index (len : nat) (i : Z) : nat :=
  if (i <? 0)%Z then Z.to_nat (Z.max (Z.of_nat len + i) 0)
  else Nat.min (Z.to_nat i) len.

(** [s.slice(start, stop)], [stop] being optional. *)
Definition slice (s : string) (start : Z) (stop : option Z) : string :=
  let len := String.length s in
  let from := clamp_index len start in
  let to :=
    match stop with
    | Some e => clamp_index len e
    | None => len
    end in
  take (to - from) (drop from s).

End StringOps.

(** [html.slice(0, html.indexOf("</html>") + 7)] and
    [html.slice(html.indexOf("</html>") + 7)], as the tests compute them
    from the text of a document response. *)
Definition criticalHTML (html : string) : string :=
  StringOps.slice html 0 (Some (StringOps.indexOf html "</html>" + 7)%Z).

Definition deferredHTML (html : string) : string :=
  StringOps.slice html (StringOps.indexOf html "</html>" + 7)%Z None.

(* ================================================================== *)
(** ** The deferred-streaming tests: monitorConsole *)
(* ================================================================== *)

(** A console message, as the JSON values of its arguments
    ([message.args()], each read with [jsonValue()]). *)
Definition ConsoleMessage := list JsValue.

(** [JSON.stringify] of an array belongs to the platform. *)
Class Stringify := {
  JSON_stringify : list JsValue -> string
}.

Definition newline : string := String (ascii_of_nat 10) EmptyString.

Definition devtoolsNotice : string := "Download the React DevTools".

(** [typeof arg0 === "string" && arg0.includes("Download the React DevTools")]. *)
Definition is_devtools_notice (arg0 : JsValue) : bool :=
  match arg0 with
  | JString text => JsString.includes devtoolsNotice text
  | _ => false
  end.

(** [`Unexpected console.log(${JSON.stringify(logs).slice(1, -1)})`]. *)
Definition unexpected_log {stringify : Stringify} (logs : list JsValue)
  : string :=
  "Unexpected console.log("
    ++ StringOps.slice (JSON_stringify logs) 1 (Some (-1)%Z) ++ ")".

(** The function [monitorConsole] returns, run on the messages its
    listener has collected from the page. *)
Definition assertConsole {stringify : Stringify}
    (messages : list ConsoleMessage) : Completion unit :=
  if (length messages =? 0)%nat then Normal tt
  else
    let errors :=
      fold_left
        (fun (errors : list string) (message : ConsoleMessage) =>
           let logs : list JsValue := [] in
           let args := message in
           match args with
           | arg0 :: _ =>
               if is_devtools_notice arg0 then errors
               else (errors ++ [unexpected_log (logs ++ [arg0])])%list
           | [] => (errors ++ [unexpected_log logs])%list
           end)
        messages [] in
    if (length errors =? 0)%nat then Normal tt
    else
      Throw (JError ("Unexpected console.log's:" ++ newline
                       ++ JsString.join newline errors ++ newline)).

(** A stand-in for [JSON.stringify] on arrays, good enough to run
    examples. *)
Definition sampleStringify : Stringify :=
  {| JSON_stringify :=
       fun values => "[" ++ JsString.join "," (map stringify values) ++ "]" |}.

(* ================================================================== *)
(** ** The entry file of the aborted-render fixture *)
(* ================================================================== *)

(** [handleRequest] answers with a promise and hands the renderer three
    callbacks; what the promise becomes depends on which callbacks the
    renderer calls, and in which order.  [rendered] stands for the
    markup the renderer pipes into the body of the response.  The timer
    [setTimeout(abort, ABORT_DELAY)] only makes the renderer call its
    callbacks sooner and has no part in the model. *)
Inductive RenderCallback : Type :=
| OnShellReady
| OnAllReady
| OnShellError (error : JsValue)
| OnError (error : JsValue).

Record EntryState := mkEntryState {
  didError : bool;
  responseHeaders : Headers;
  promise : option (Completion Response);
  consoleErrors : list JsValue;
  piped : nat
}.

(** [resolve] and [reject] have no effect on a promise that has
    settled. *)
Definition settle_promise (current : option (Completion Response))
    (outcome : Completion Response) : option (Completion Response) :=
  match current with
  | None => Some outcome
  | Some _ => current
  end.

(** The body shared by [onAllReady] of [handleBotRequest] and
    [onShellReady] of [handleBrowserRequest]. *)
Definition respond (responseStatusCode : Z) (rendered : string)
    (st : EntryState) : EntryState :=
  let responseHeaders' :=
    HeaderList.set "Content-Type" "text/html" (responseHeaders st) in
  {| didError := didError st;
     responseHeaders := responseHeaders';
     promise :=
       settle_promise (promise st)
         (Normal {| status := if didError st then 500 else responseStatusCode;
                    statusText := "";
                    headers := responseHeaders';
                    headersImmutable := false;
                    body := rendered |});
     consoleErrors := consoleErrors st;
     piped := S (piped st) |}.

Definition shellError (error : JsValue) (st : EntryState) : EntryState :=
  {| didError := didError st;
     responseHeaders := responseHeaders st;
     promise := settle_promise (promise st) (Throw error);
     consoleErrors := consoleErrors st;
     piped := piped st |}.

Definition renderError (error : JsValue) (st : EntryState) : EntryState :=
  {| didError := true;
     responseHeaders := responseHeaders st;
     promise := promise st;
     consoleErrors := (consoleErrors st ++ [error])%list;
     piped := piped st |}.

Definition entryStart (responseHeaders : Headers) : EntryState :=
  {| didError := false; responseHeaders := responseHeaders;
     promise := None; consoleErrors := []; piped := 0 |}.

(** The callbacks [handleBotRequest] passes to the renderer:
    [onAllReady], [onShellError] and [onError]. *)
Definition botCallbacks (responseStatusCode : Z) (rendered : string)
    (st : EntryState) (call : RenderCallback) : EntryState :=
  match call with
  | OnAllReady => respond responseStatusCode rendered st
  | OnShellError error => shellError error st
  | OnError error => renderError error st
  | OnShellReady => st
  end.

Definition handleBotRequest (request : Request) (responseStatusCode : Z)
    (responseHeaders : Headers) (rendered : string)
    (calls : list RenderCallback) : EntryState :=
  fold_left (botCallbacks responseStatusCode rendered) calls
    (entryStart responseHeaders).

(** The callbacks [handleBrowserRequest] passes to the renderer:
    [onShellReady], [onShellError] and [onError]. *)
Definition browserCallbacks (responseStatusCode : Z) (rendered : string)
    (st : EntryState) (call : RenderCallback) : EntryState :=
  match call with
  | OnShellReady => respond responseStatusCode rendered st
  | OnShellError err => shellError err st
  | OnError error => renderError error st
  | OnAllReady => st
  end.

Definition handleBrowserRequest (request : Request) (responseStatusCode : Z)
    (responseHeaders : Headers) (rendered : string)
    (calls : list RenderCallback) : EntryState :=
  fold_left (browserCallbacks responseStatusCode rendered) calls
    (entryStart responseHeaders).

(** [isbot] comes from a package of its own and is taken as given. *)
Definition handleRequest (isbot : option string -> bool)
    (request : Request) (responseStatusCode : Z)
    (responseHeaders : Headers) (rendered : string)
    (calls : list RenderCallback) : EntryState :=
  if isbot (HeaderList.get "user-agent" (req_headers request))
  then handleBotRequest request responseStatusCode responseHeaders
         rendered calls
  else handleBrowserRequest request responseStatusCode responseHeaders
         rendered calls.

(** The callback a request waits for before it answers, and the calls
    that leave the promise pending: any but the awaited one and
    [onShellError]. *)
Definition awaited (isbot : option string -> bool) (request : Request)
  : RenderCallback :=
  if isbot (HeaderList.get "user-agent" (req_headers request))
  then OnAllReady else OnShellReady.

Definition keeps_pending (wait : RenderCallback) (call : RenderCallback)
  : bool :=
  match call, wait with
  | OnShellError _, _ => false
  | OnShellReady, OnShellReady => false
  | OnAllReady, OnAllReady => false
  | _, _ => true
  end.

Definition isRenderError (call : RenderCallback) : bool :=
  match call with
  | OnError _ => true
  | _ => false
  end.

(** A crawler detector for running examples. *)
Definition sampleIsbot (userAgent : option string) : bool :=
  match userAgent with
  | Some ua => JsString.includes "bot" ua
  | None => false
  end.

Definition crawlerRequest : Request :=
  {| method := "GET";
     url := {| origin := "http://localhost";
               pathname := "/deferred-server-aborted";
               searchParams := [];
               hash := "" |};
     req_headers := [("User-Agent", "Googlebot/2.1")];
     req_body := None |}.

(* ================================================================== *)
(** ** The loader of the manual-resolve route *)
(* ================================================================== *)

From Stdlib Require DecimalString DecimalNat.

(** [["" + n]] for a number that is a natural. *)
Definition number_to_string (n : nat) : string :=
  DecimalString.NilEmpty.string_of_uint (Nat.to_uint n).

(** A plain object used as a map from strings: reading [o[key]] and
    assigning [o[key] = value]. *)
Module JsObject.

Definition get (V : Type) (key : string) (o : list (string * V)) : option V :=
  match find (fun p => fst p =? key) o with
  | Some p => Some (snd p)
  | None => None
  end.

Fixpoint set (V : Type) (key : string) (value : V) (o : list (string * V))
  : list (string * V) :=
  match o with
  | [] => [(key, value)]
  | p :: rest =>
      if fst p =? key then (fst p, value) :: rest
      else p :: set key value rest
  end.

End JsObject.

(** [global.__deferredManualResolveCache].  [R] is the type of the pairs
    [{ resolve, reject }] the [Promise] constructor hands to its
    executor; such a pair also stands for the promise it settles. *)
Record ManualResolveCache (R : Type) := mkCache {
  nextId : nat;
  deferreds : list (string * R)
}.

(** What the loader passes to [defer]: two plain fields, a promise that
    resolves by itself after some milliseconds, and the promise that is
    resolved by hand. *)
Record ManualLoaderData (R : Type) := mkLoaderData {
  data_deferredId : string;
  data_resolvedId : nat * string;
  data_id : string;
  data_manualValue : R
}.

(** [global.__deferredManualResolveCache || { nextId: 1, deferreds: {} }]. *)
Definition cacheOrNew (R : Type) (global : option (ManualResolveCache R))
  : ManualResolveCache R :=
  match global with
  | Some cache => cache
  | None => {| nextId := 1; deferreds := [] |}
  end.

Definition manualResolveLoader (R : Type)
    (global : option (ManualResolveCache R)) (resolvers : R)
  : ManualLoaderData R * option (ManualResolveCache R) :=
  let cache := cacheOrNew global in
  let id := number_to_string (nextId cache) in
  let cache := {| nextId := S (nextId cache); deferreds := deferreds cache |} in
  let cache :=
    {| nextId := nextId cache;
       deferreds := JsObject.set id resolvers (deferreds cache) |} in
  ({| data_deferredId := "DEFERRED_ID";
      data_resolvedId := (10, "RESOLVED_DEFERRED_ID");
      data_id := id;
      data_manualValue := resolvers |},
   Some cache).

(** The loader called once for each request, one after the other. *)
Fixpoint manualResolveLoads (R : Type)
    (global : option (ManualResolveCache R)) (calls : list R)
  : list (ManualLoaderData R) * option (ManualResolveCache R) :=
  match calls with
  | [] => ([], global)
  | resolvers :: rest =>
      let (data, global') := manualResolveLoader global resolvers in
      let (others, final) := manualResolveLoads global' rest in
      (data :: others, final)
  end.

(** Inputs for running the tests' helpers on examples. *)
Definition streamedDocument : string :=
  "<html><body>shell</body></html><script>late</script>".

Definition collectedMessages : list ConsoleMessage :=
  [[JString "Download the React DevTools for a better experience"];
   [JString "oops"; JData "1"];
   []].

(* ================================================================== *)
(** * Properties *)
(* ================================================================== *)

(** ** Strings *)

Lemma strip_prefix_app (p rest : string) :
  JsString.strip_prefix p (p ++ rest) = Some rest.
Proof.
  induction p as [|c p IH]; simpl.
  - now destruct rest.
  - now rewrite Ascii.eqb_refl.
Qed.

Lemma includes_unfold (needle hay : string) :
  JsString.includes needle hay =
  match JsString.strip_prefix needle hay with
  | Some _ => true
  | None =>
      match hay with
      | EmptyString => false
      | String _ hay' => JsString.includes needle hay'
      end
  end.
Proof. now destruct hay. Qed.

Lemma includes_prefix (needle rest : string) :
  JsString.includes needle (needle ++ rest) = true.
Proof. now rewrite includes_unfold, strip_prefix_app. Qed.

Lemma includes_app_r (needle before hay : string) :
  JsString.includes needle hay = true ->
  JsString.includes needle (before ++ hay) = true.
Proof.
  intros Hin. induction before as [|c before IH]; simpl; [exact Hin|].
  rewrite includes_unfold in IH.
  destruct (JsString.strip_prefix needle (String c (before ++ hay)));
    [reflexivity|].
  now rewrite <- includes_unfold in IH.
Qed.

Ltac find_in_message :=
  first [ reflexivity
        | apply includes_prefix
        | apply includes_app_r; find_in_message ].

(** ** Headers *)

Lemma same_name_refl (name value : string) :
  HeaderList.same_name name (name, value) = true.
Proof. unfold HeaderList.same_name. apply String.eqb_refl. Qed.

Lemma filter_none (A : Type) (f : A -> bool) (l : list A) :
  filter f (filter (fun x => negb (f x)) l) = [].
Proof.
  induction l as [|x l IH]; simpl; [reflexivity|].
  destruct (f x) eqn:E; simpl; [exact IH|].
  now rewrite E.
Qed.

Lemma filter_absent (A : Type) (f : A -> bool) (l : list A) :
  existsb f l = false -> filter f l = [].
Proof.
  induction l as [|x l IH]; simpl; [reflexivity|].
  intros H. apply orb_false_iff in H. destruct H as [Hx Hl].
  rewrite Hx. now apply IH.
Qed.

Lemma same_name_fst (name : string) (h : string * string) (value : string) :
  HeaderList.same_name name (fst h, value) = HeaderList.same_name name h.
Proof. reflexivity. Qed.

Lemma filter_replace_first (name value : string) (hs : Headers) :
  HeaderList.has name hs = true ->
  exists name',
    filter (HeaderList.same_name name) (HeaderList.replace_first name value hs)
    = [(name', value)].
Proof.
  unfold HeaderList.has.
  induction hs as [|h hs IH]; simpl; [discriminate|].
  intros H. destruct (HeaderList.same_name name h) eqn:E.
  - exists (fst h). simpl. rewrite same_name_fst, E.
    now rewrite filter_none.
  - simpl in H. destruct (IH H) as [name' Hn].
    exists name'. simpl. now rewrite E.
Qed.

(** After [headers.set(name, value)], [headers.get(name)] is [value]. *)
Lemma get_set (name value : string) (hs : Headers) :
  HeaderList.get name (HeaderList.set name value hs) = Some value.
Proof.
  unfold HeaderList.get, HeaderList.set.
  destruct (HeaderList.has name hs) eqn:E.
  - destruct (filter_replace_first name value hs E) as [name' ->].
    reflexivity.
  - rewrite filter_app, (filter_absent _ _ E). simpl.
    now rewrite same_name_refl.
Qed.

(** ** Request normalisation *)

Lemma collect_truthy (values acc : list string) :
  fold_left
    (fun keep indexValue =>
       if JsString.truthy indexValue
       then (keep ++ [indexValue])%list else keep)
    values acc
  = (acc ++ filter JsString.truthy values)%list.
Proof.
  revert acc. induction values as [|v values IH]; intros acc; simpl.
  - now rewrite app_nil_r.
  - rewrite IH. destruct (JsString.truthy v); [|reflexivity].
    now rewrite <- app_assoc.
Qed.

Lemma append_all (name : string) (values : list string) (u : URL) :
  fold_left
    (fun u' toKeep =>
       set_searchParams u'
         (SearchParams.append name toKeep (searchParams u')))
    values u
  = set_searchParams u
      (searchParams u ++ map (fun v => (name, v)) values)%list.
Proof.
  revert u. induction values as [|v values IH]; intros u; simpl.
  - rewrite app_nil_r. now destruct u.
  - rewrite IH. unfold SearchParams.append, set_searchParams. simpl.
    now rewrite <- app_assoc.
Qed.

Lemma kept_index_pairs (q : URLSearchParams) :
  map (fun v => ("index", v))
      (filter JsString.truthy (SearchParams.getAll "index" q))
  = filter (fun p => (fst p =? "index") && JsString.truthy (snd p)) q.
Proof.
  unfold SearchParams.getAll.
  induction q as [|[k v] q IH]; simpl; [reflexivity|].
  destruct (k =? "index") eqn:E; simpl; [|exact IH].
  apply String.eqb_eq in E. subst k.
  destruct (JsString.truthy v); simpl; now rewrite IH.
Qed.

Lemma filter_filter (A : Type) (f g : A -> bool) (l : list A) :
  filter f (filter g l) = filter (fun x => g x && f x) l.
Proof.
  induction l as [|x l IH]; simpl; [reflexivity|].
  destruct (g x); simpl; [destruct (f x)|]; now rewrite IH.
Qed.

(** The query of the normalised request, in closed form. *)
Lemma normalized_query (r : Request) :
  searchParams (url (stripDataParam (stripIndexParam r)))
  = reordered_query (searchParams (url r)).
Proof.
  unfold stripDataParam, stripIndexParam, reordered_query.
  rewrite collect_truthy, append_all. simpl.
  rewrite kept_index_pairs.
  unfold SearchParams.delete.
  rewrite filter_app, !filter_filter. f_equal.
  apply filter_ext. intros [k v]. simpl.
  destruct (k =? "index") eqn:E; simpl; [|reflexivity].
  apply String.eqb_eq in E. subst k. simpl. now rewrite andb_true_r.
Qed.

Lemma truthy_nonempty (s : string) : JsString.truthy s = negb (s =? "").
Proof. now destruct s. Qed.

Lemma getAll_filter (name : string) (f : string * string -> bool)
    (q : URLSearchParams) :
  SearchParams.getAll name (filter f q)
  = map snd (filter (fun p => f p && (fst p =? name)) q).
Proof. unfold SearchParams.getAll. now rewrite filter_filter. Qed.

Lemma getAll_app (name : string) (q1 q2 : URLSearchParams) :
  SearchParams.getAll name (q1 ++ q2)%list
  = (SearchParams.getAll name q1 ++ SearchParams.getAll name q2)%list.
Proof. unfold SearchParams.getAll. now rewrite filter_app, map_app. Qed.

Lemma filter_false (A : Type) (f : A -> bool) (l : list A) :
  (forall x, f x = false) -> filter f l = [].
Proof.
  intros Hf. induction l as [|x l IH]; simpl; [reflexivity|].
  now rewrite Hf.
Qed.

(** Name by name, the reordered query and the filtered query hold the
    same values in the same order. *)
Lemma reordered_getAll (name : string) (q : URLSearchParams) :
  SearchParams.getAll name (reordered_query q)
  = SearchParams.getAll name (filtered_query q).
Proof.
  unfold reordered_query, filtered_query.
  rewrite getAll_app, !getAll_filter.
  destruct (name =? "index") eqn:E.
  - apply String.eqb_eq in E. subst name.
    rewrite (@filter_false _
      (fun p => negb (fst p =? "index") && negb (fst p =? "_data")
                && (fst p =? "index"))).
    + cbn [app map]. f_equal. apply filter_ext. intros [k v].
      unfold is_internal. cbn [fst snd]. rewrite truthy_nonempty.
      destruct (k =? "index") eqn:K.
      * apply String.eqb_eq in K. subst k.
        now destruct (v =? "").
      * now destruct (k =? "_data").
    + intros [k v]. cbn [fst snd].
      destruct (k =? "index"); [reflexivity|apply andb_false_r].
  - rewrite (@filter_false _
      (fun p => (fst p =? "index") && JsString.truthy (snd p)
                && (fst p =? name))).
    + rewrite app_nil_r. f_equal. apply filter_ext. intros [k v].
      unfold is_internal. cbn [fst snd].
      destruct (k =? "index") eqn:K.
      * apply String.eqb_eq in K. subst k.
        rewrite String.eqb_sym in E. rewrite E.
        now rewrite !andb_false_r.
      * now destruct (k =? "_data").
    + intros [k v]. cbn [fst snd].
      destruct (k =? "index") eqn:K; [|reflexivity].
      apply String.eqb_eq in K. subst k.
      rewrite String.eqb_sym in E. rewrite E.
      now rewrite andb_false_r.
Qed.

Lemma reordered_permutation (q : URLSearchParams) :
  Permutation (reordered_query q) (filtered_query q).
Proof.
  unfold reordered_query, filtered_query.
  induction q as [|[k v] q IH]; simpl; [constructor|].
  unfold is_internal at 1. simpl. rewrite truthy_nonempty.
  destruct (k =? "index") eqn:K; simpl.
  - apply String.eqb_eq in K. subst k. simpl.
    destruct (v =? ""); simpl; [exact IH|].
    apply Permutation_sym, Permutation_cons_app, Permutation_sym, IH.
  - destruct (k =? "_data"); simpl; [exact IH|].
    now apply perm_skip.
Qed.

Lemma getAll_delete (name : string) (q : URLSearchParams) :
  SearchParams.getAll name (SearchParams.delete name q) = [].
Proof.
  unfold SearchParams.getAll, SearchParams.delete.
  now rewrite filter_none.
Qed.

Lemma no_empty_index (q : URLSearchParams) :
  ~ In ("index", "") (reordered_query q).
Proof.
  unfold reordered_query. intros Hin.
  apply in_app_or in Hin. destruct Hin as [Hin|Hin];
    apply filter_In in Hin; destruct Hin as [_ Hin]; discriminate Hin.
Qed.

(** C9, as amended.  The normalised request has the query of the original
    one without its [_data] pairs and without its [index] pairs of empty
    value, the [index] pairs of non-empty value being moved behind all
    other pairs: name by name the values and their order are those of the
    filtered query, of which the new query is a permutation.  Origin,
    pathname and fragment of the URL and method, headers and body of the
    request are unchanged. *)
Theorem normalized_request_frame (r : Request) :
  let r' := stripDataParam (stripIndexParam r) in
  let q := searchParams (url r) in
  searchParams (url r') = reordered_query q
  /\ (forall name,
         SearchParams.getAll name (searchParams (url r'))
         = SearchParams.getAll name (filtered_query q))
  /\ Permutation (searchParams (url r')) (filtered_query q)
  /\ origin (url r') = origin (url r)
  /\ pathname (url r') = pathname (url r)
  /\ hash (url r') = hash (url r)
  /\ method r' = method r
  /\ req_headers r' = req_headers r
  /\ req_body r' = req_body r.
Proof.
  cbv zeta. rewrite normalized_query.
  split; [reflexivity|].
  split; [intros name; apply reordered_getAll|].
  split; [apply reordered_permutation|].
  unfold stripDataParam, stripIndexParam.
  rewrite collect_truthy, append_all. repeat split.
Qed.

(** C9, as first stated, fails: a kept [index] pair that stood before
    another pair stands behind it afterwards, so the new query is not the
    filtered one. *)
Lemma normalized_query_not_filtered :
  searchParams (url (stripDataParam (stripIndexParam indexFirstRequest)))
  = [("a", "2"); ("index", "1")]
  /\ filtered_query (searchParams (url indexFirstRequest))
     = [("index", "1"); ("a", "2")]
  /\ searchParams (url (stripDataParam (stripIndexParam indexFirstRequest)))
     <> filtered_query (searchParams (url indexFirstRequest)).
Proof.
  split; [reflexivity|]. split; [reflexivity|].
  intros Heq. vm_compute in Heq. discriminate Heq.
Qed.

(** ** The invocation layer *)

Section Invocation.

Context {responses : Responses}.

Variable loadContext : AppLoadContext.
Variable routeId : string.
Variable pathParams : Params.
Variable incoming : Request.

Local Abbreviation args := (handlerArgs loadContext pathParams incoming).

(** C3.  Without a handler the call fails with an [ErrorResponse] of
    status 405, "Method Not Allowed", whose message contains the request
    method, the pathname of the request URL, the route id, and says
    which kind of handler (action or loader) is missing. *)
Theorem missing_handler_is_405 (isRemixRouterRequest : option bool) :
  (exists msg,
      callRouteAction loadContext routeId None pathParams incoming
        isRemixRouterRequest
      = Throw (JErrorResponse 405 "Method Not Allowed" (JError msg) true)
      /\ JsString.includes (method incoming) msg = true
      /\ JsString.includes (pathname (url incoming)) msg = true
      /\ JsString.includes routeId msg = true
      /\ JsString.includes "`action`" msg = true)
  /\
  (exists msg,
      callRouteLoader loadContext routeId None pathParams incoming
        isRemixRouterRequest
      = Throw (JErrorResponse 405 "Method Not Allowed" (JError msg) true)
      /\ JsString.includes (method incoming) msg = true
      /\ JsString.includes (pathname (url incoming)) msg = true
      /\ JsString.includes routeId msg = true
      /\ JsString.includes "`loader`" msg = true).
Proof.
  split; eexists; (split; [reflexivity|]); repeat split;
    find_in_message.
Qed.

(** C4.  A handler that resolves to [undefined] makes each of the four
    entry points fail with an [Error] whose message contains the route
    id and names the kind of handler; no response is produced. *)
Theorem undefined_result_is_an_error
    (handler : DataFunction) (isRemixRouterRequest : option bool)
    (Hundef : handler args = Normal JUndefined) :
  (exists msg,
      callRouteAction loadContext routeId (Some handler) pathParams
        incoming isRemixRouterRequest = Throw (JError msg)
      /\ JsString.includes routeId msg = true
      /\ JsString.includes "`action`" msg = true)
  /\ (exists msg,
      callRouteLoader loadContext routeId (Some handler) pathParams
        incoming isRemixRouterRequest = Throw (JError msg)
      /\ JsString.includes routeId msg = true
      /\ JsString.includes "`loader`" msg = true)
  /\ (exists msg,
      callRouteActionRR loadContext handler pathParams incoming routeId
      = Throw (JError msg)
      /\ JsString.includes routeId msg = true
      /\ JsString.includes "`action`" msg = true)
  /\ (exists msg,
      callRouteLoaderRR loadContext handler pathParams incoming routeId
      = Throw (JError msg)
      /\ JsString.includes routeId msg = true
      /\ JsString.includes "`loader`" msg = true).
Proof.
  unfold callRouteAction, callRouteLoader, callRouteActionRR,
    callRouteLoaderRR.
  unfold handlerArgs in Hundef. rewrite Hundef.
  cbn [bind try_catch is_undefined].
  repeat split; eexists; (split; [reflexivity|]); split;
    find_in_message.
Qed.

(** C5.  When the handler completes with a defined result, a response
    is returned as it is and anything else is returned wrapped by
    [json]; this holds for all four entry points. *)
Theorem defined_result_becomes_response
    (handler : DataFunction) (isRemixRouterRequest : option bool)
    (result : JsValue)
    (Hresult : handler args = Normal result)
    (Hdefined : result <> JUndefined) :
  let returned :=
    match result with
    | JResponse response => response
    | data => json data
    end in
  callRouteAction loadContext routeId (Some handler) pathParams incoming
    isRemixRouterRequest = Normal returned
  /\ callRouteLoader loadContext routeId (Some handler) pathParams incoming
    isRemixRouterRequest = Normal returned
  /\ callRouteActionRR loadContext handler pathParams incoming routeId
    = Normal returned
  /\ callRouteLoaderRR loadContext handler pathParams incoming routeId
    = Normal returned.
Proof.
  unfold callRouteAction, callRouteLoader, callRouteActionRR,
    callRouteLoaderRR.
  unfold handlerArgs in Hresult. rewrite Hresult. simpl.
  destruct result; try congruence; repeat split; reflexivity.
Qed.


(** C2.  A redirect response thrown by the handler is returned as the
    result, the very response that was thrown, whatever the value of
    [isRemixRouterRequest]. *)
Theorem thrown_redirect_is_returned
    (handler : DataFunction) (isRemixRouterRequest : option bool)
    (response : Response)
    (Hthrows : handler args = Throw (JResponse response))
    (Hredirect : isRedirectResponse response = true) :
  callRouteAction loadContext routeId (Some handler) pathParams incoming
    isRemixRouterRequest = Normal response
  /\ callRouteLoader loadContext routeId (Some handler) pathParams
       incoming isRemixRouterRequest = Normal response.
Proof.
  unfold callRouteAction, callRouteLoader.
  unfold handlerArgs in Hthrows. rewrite Hthrows. simpl. rewrite Hredirect. simpl.
  split; reflexivity.
Qed.

(** C10.  The RR entry points catch nothing: whatever the handler
    throws, a response or not, a redirect or not, is thrown on as it
    is, without the [X-Remix-Catch] header being set. *)
Theorem rr_throws_propagate (handler : DataFunction) (thrown : JsValue)
    (Hthrows : handler args = Throw thrown) :
  callRouteActionRR loadContext handler pathParams incoming routeId
  = Throw thrown
  /\ callRouteLoaderRR loadContext handler pathParams incoming routeId
     = Throw thrown.
Proof.
  unfold callRouteActionRR, callRouteLoaderRR.
  unfold handlerArgs in Hthrows. rewrite Hthrows. split; reflexivity.
Qed.

(** C6.  Each of the four entry points calls the handler, and calls it
    on a request whose URL has no [_data] parameter and no [index]
    parameter of empty value, together with the load context and the path
    parameters of the caller: whatever response a handler builds from the
    arguments it receives, the entry point returns the response built
    from exactly these arguments.  The handler is consulted on no other
    arguments, so that two handlers that agree there give the same
    outcome. *)
Theorem handler_gets_normalized_request
    (isRemixRouterRequest : option bool) :
  SearchParams.getAll "_data" (searchParams (url (request args))) = []
  /\ SearchParams.has "_data" (searchParams (url (request args))) = false
  /\ ~ In ("index", "") (searchParams (url (request args)))
  /\ context args = loadContext
  /\ params args = pathParams
  /\ (forall observe : DataFunctionArgs -> Response,
         let probe : DataFunction :=
           fun received => Normal (JResponse (observe received)) in
         callRouteAction loadContext routeId (Some probe) pathParams
           incoming isRemixRouterRequest
         = Normal (observe args)
         /\ callRouteLoader loadContext routeId (Some probe) pathParams
              incoming isRemixRouterRequest
            = Normal (observe args)
         /\ callRouteActionRR loadContext probe pathParams incoming routeId
            = Normal (observe args)
         /\ callRouteLoaderRR loadContext probe pathParams incoming routeId
            = Normal (observe args))
  /\ forall h1 h2 : DataFunction,
      h1 args = h2 args ->
      callRouteAction loadContext routeId (Some h1) pathParams incoming
        isRemixRouterRequest
      = callRouteAction loadContext routeId (Some h2) pathParams incoming
          isRemixRouterRequest
      /\ callRouteLoader loadContext routeId (Some h1) pathParams incoming
           isRemixRouterRequest
         = callRouteLoader loadContext routeId (Some h2) pathParams
             incoming isRemixRouterRequest
      /\ callRouteActionRR loadContext h1 pathParams incoming routeId
         = callRouteActionRR loadContext h2 pathParams incoming routeId
      /\ callRouteLoaderRR loadContext h1 pathParams incoming routeId
         = callRouteLoaderRR loadContext h2 pathParams incoming routeId.
Proof.
  split; [apply getAll_delete|].
  split.
  { cbn [handlerArgs request]. unfold stripDataParam at 1.
    cbn [url searchParams new_Request set_searchParams].
    unfold SearchParams.has, SearchParams.delete.
    apply not_true_is_false. intros Hex.
    apply existsb_exists in Hex. destruct Hex as [p [Hin Hp]].
    apply filter_In in Hin. destruct Hin as [_ Hneg].
    now rewrite Hp in Hneg. }
  split.
  { cbn [handlerArgs request]. rewrite normalized_query.
    apply no_empty_index. }
  split; [reflexivity|]. split; [reflexivity|].
  split.
  { intros observe probe. repeat split. }
  intros h1 h2 Hagree. unfold handlerArgs in Hagree.
  unfold callRouteAction, callRouteLoader, callRouteActionRR,
    callRouteLoaderRR.
  rewrite Hagree. repeat split.
Qed.

End Invocation.


(** ** extractData *)

Section TokenSearch.

Import ApplicationJsonRegExp.

Lemma strip_prefix_Some (p s rest : string) :
  JsString.strip_prefix p s = Some rest -> s = p ++ rest.
Proof.
  revert s. induction p as [|a p IH]; intros s; simpl.
  - intros [= ->]. reflexivity.
  - destruct s as [|b s]; [discriminate|].
    destruct (Ascii.eqb a b) eqn:E; [|discriminate].
    apply Ascii.eqb_eq in E. subst b.
    intros Hs. now rewrite (IH _ Hs).
Qed.

Lemma last_char_nonempty (c : ascii) (s : string) :
  exists x, last_char (String c s) = Some x.
Proof.
  revert c. induction s as [|d s IH]; intros c.
  - now exists c.
  - destruct (IH d) as [x Hx]. exists x.
    change (last_char (String c (String d s)))
      with (last_char (String d s)).
    exact Hx.
Qed.

Lemma last_or_cons (prev : option ascii) (c : ascii) (before : string) :
  last_or prev (String c before) = last_or (Some c) before.
Proof.
  unfold last_or. destruct before as [|d before]; [reflexivity|].
  change (last_char (String c (String d before)))
    with (last_char (String d before)).
  destruct (last_char_nonempty d before) as [x ->]. reflexivity.
Qed.

Lemma match_here_spec (prev : option ascii) (s : string) :
  match_here prev s = true <->
  exists after,
    s = literal ++ after
    /\ word_at prev = false /\ word_at (head after) = false.
Proof.
  unfold match_here. split.
  - intros Hm. apply andb_true_iff in Hm. destruct Hm as [Hb Hrest].
    destruct (JsString.strip_prefix literal s) as [rest|] eqn:E;
      [|discriminate].
    apply strip_prefix_Some in E. subst s.
    exists rest. split; [reflexivity|].
    unfold word_boundary in *. cbn [literal append head word_at] in Hb.
    change (is_word_char "a") with true in Hb.
    change (word_at (Some "n"%char)) with true in Hrest.
    split.
    + now destruct (word_at prev).
    + now destruct (word_at (head rest)).
  - intros [after [-> [Hprev Hafter]]].
    rewrite strip_prefix_app. unfold word_boundary.
    rewrite Hprev, Hafter. reflexivity.
Qed.

Lemma test_from_spec (s : string) :
  forall prev,
    test_from prev s = true <->
    exists before after,
      s = before ++ literal ++ after
      /\ word_at (last_or prev before) = false
      /\ word_at (head after) = false.
Proof.
  induction s as [|c s IH]; intros prev.
  - split.
    + cbn [test_from]. rewrite orb_false_r. intros Hm.
      apply match_here_spec in Hm. destruct Hm as [after [Hs _]].
      discriminate Hs.
    + intros [before [after [Hs _]]].
      destruct before; discriminate Hs.
  - cbn [test_from]. rewrite orb_true_iff, match_here_spec, IH. split.
    + intros [[after [Hs [Hp Ha]]] | [before [after [Hs [Hp Ha]]]]].
      * exists "", after. now repeat split.
      * exists (String c before), after. rewrite last_or_cons.
        repeat split; [|assumption|assumption].
        cbn [append]. now rewrite Hs.
    + intros [before [after [Hs [Hp Ha]]]].
      destruct before as [|c' before].
      * left. exists after. now repeat split.
      * right. cbn [append] in Hs. injection Hs as -> Hs.
        exists before, after. rewrite last_or_cons in Hp.
        now repeat split.
Qed.

(** The regular expression matches exactly the header values that
    contain the token. *)
Lemma test_iff_token (contentType : string) :
  test contentType = true <-> contains_json_token contentType.
Proof.
  unfold test, contains_json_token. rewrite test_from_spec.
  split; intros [before [after [Hs [Hp Ha]]]]; exists before, after;
    repeat split; try assumption.
  - unfold last_or in Hp. now destruct (last_char before).
  - unfold last_or. now destruct (last_char before).
Qed.

Lemma token_nonempty (contentType : string) :
  contains_json_token contentType -> JsString.truthy contentType = true.
Proof.
  intros [before [after [-> _]]]. now destruct before.
Qed.

End TokenSearch.

(** C7.  [extractData] reads the body as JSON when the [Content-Type]
    header of the response contains the token [application/json], and as
    text for every other response, be it without that header or with
    another content type. *)
Theorem extractData_by_content_type {platform : Json} (response : Response) :
  (forall contentType,
      HeaderList.get "Content-Type" (headers response) = Some contentType ->
      contains_json_token contentType ->
      extractData response = response_json response)
  /\ ((forall contentType,
          HeaderList.get "Content-Type" (headers response)
          = Some contentType ->
          ~ contains_json_token contentType) ->
      extractData response = response_text response).
Proof.
  unfold extractData. split.
  - intros contentType -> Htoken.
    rewrite (token_nonempty Htoken).
    apply test_iff_token in Htoken. now rewrite Htoken.
  - intros Hother.
    destruct (HeaderList.get "Content-Type" (headers response))
      as [contentType|]; [|reflexivity].
    destruct (ApplicationJsonRegExp.test contentType) eqn:E.
    + apply test_iff_token in E. now destruct (Hother _ eq_refl).
    + now rewrite andb_false_r.
Qed.

(** ** The abort governor *)

Section Abort.

Import Assembler.

Lemma drop_absent (fp : FieldPath) (l : list FieldPath) :
  ~ In fp l -> drop_pending fp l = l.
Proof.
  unfold drop_pending. induction l as [|p l IH]; intros Hnot;
    [reflexivity|].
  cbn [filter]. destruct (p =? fp) eqn:E.
  - apply String.eqb_eq in E. subst p. destruct Hnot. now left.
  - cbn [negb]. rewrite IH; [reflexivity|].
    intros Hin. apply Hnot. now right.
Qed.

Lemma drop_head (fp : FieldPath) (l : list FieldPath) :
  ~ In fp l -> drop_pending fp (fp :: l) = l.
Proof.
  intros Hnot. unfold drop_pending. cbn [filter].
  rewrite String.eqb_refl. cbn [negb]. now apply drop_absent.
Qed.

(** Settling the pending fields one after the other as rejected with
    [Aborted] sends one chunk for each and completes the stream. *)
Lemma force_settle_all (l : list FieldPath) :
  forall t,
    NoDup l -> pending t = l -> phase t = AbortedPhase ->
    timer_armed t = false ->
    close_if_done
      (fold_left (fun st fp => settle fp (Rejected Aborted) st) l t)
    = completed_with t (chunks t ++ aborted_chunks l)%list.
Proof.
  induction l as [|fp l IH]; intros t Hnodup Hpending Hphase Htimer.
  - cbn [fold_left aborted_chunks map]. unfold close_if_done.
    rewrite Hpending, app_nil_r. reflexivity.
  - inversion Hnodup as [|? ? Hnot Hnodup']; subst.
    cbn [fold_left].
    assert (Hsettle :
      settle fp (Rejected Aborted) t
      = close_if_done
          {| phase := AbortedPhase; pending := l;
             chunks := (chunks t ++ [RejectedValue fp Aborted])%list;
             transport_open := transport_open t; timer_armed := false;
             elapsed := elapsed t; abortDelay := abortDelay t |}).
    { unfold settle, is_pending. rewrite Hpending. cbn [existsb].
      rewrite String.eqb_refl. cbn [orb]. rewrite Hphase.
      rewrite (@drop_head _ _ Hnot), Htimer. reflexivity. }
    rewrite Hsettle. clear Hsettle.
    destruct l as [|fp' l].
    + reflexivity.
    + unfold close_if_done at 2. cbn [pending].
      rewrite IH; try reflexivity; try assumption.
      unfold completed_with. cbn [chunks elapsed abortDelay].
      unfold aborted_chunks. cbn [map].
      now rewrite <- app_assoc.
Qed.

Lemma abort_spec (s : State) :
  phase s = Streaming -> NoDup (pending s) ->
  abort s = completed_with s (chunks s ++ aborted_chunks (pending s))%list.
Proof.
  intros Hphase Hnodup. unfold abort. rewrite Hphase.
  now rewrite force_settle_all.
Qed.

Lemma tick_before_deadline (s : State) :
  S (elapsed s) < abortDelay s -> step Tick s = advance_clock s.
Proof.
  intros Hlt. cbn [step advance_clock timer_armed abortDelay elapsed].
  destruct (Nat.leb_spec (abortDelay s) (S (elapsed s))) as [Hle|_];
    [lia|].
  now rewrite andb_false_r.
Qed.

Lemma tick_at_deadline (s : State) :
  timer_armed s = true -> abortDelay s <= S (elapsed s) ->
  step Tick s = abort (advance_clock s).
Proof.
  intros Harmed Hle.
  cbn [step advance_clock timer_armed abortDelay elapsed].
  rewrite Harmed.
  destruct (Nat.leb_spec (abortDelay s) (S (elapsed s))) as [_|Hlt];
    [reflexivity|lia].
Qed.

Lemma run_until_deadline (d : nat) :
  forall s,
    phase s = Streaming -> timer_armed s = true -> NoDup (pending s) ->
    abortDelay s = elapsed s + S d ->
    run (repeat Tick (S d)) s
    = {| phase := Completed; pending := [];
         chunks := (chunks s ++ aborted_chunks (pending s))%list;
         transport_open := false; timer_armed := false;
         elapsed := abortDelay s; abortDelay := abortDelay s |}.
Proof.
  unfold run.
  induction d as [|d IH]; intros s Hphase Harmed Hnodup Hdelay.
  - cbn [repeat fold_left].
    rewrite tick_at_deadline by (assumption || lia).
    rewrite abort_spec by assumption.
    unfold completed_with, advance_clock.
    cbn [chunks pending elapsed abortDelay].
    f_equal. lia.
  - change (repeat Tick (S (S d))) with (Tick :: repeat Tick (S d)).
    cbn [fold_left]. rewrite tick_before_deadline by lia.
    rewrite IH; try assumption; [reflexivity|].
    cbn [advance_clock elapsed abortDelay]. lia.
Qed.

(** C8.  When the abort delay elapses while N fields are still pending,
    each of the N fields gets one rejected chunk carrying the [Aborted]
    error, nothing stays pending, and the stream is [Completed] and its
    transport closed at the very tick at which the delay elapses. *)
Theorem abort_rejects_all_pending (s : State) (N : nat)
    (Hphase : phase s = Streaming)
    (Harmed : timer_armed s = true)
    (Hnodup : NoDup (pending s))
    (Hcount : length (pending s) = N)
    (Hrunning : elapsed s < abortDelay s) :
  let s' := run (repeat Tick (abortDelay s - elapsed s)) s in
  phase s' = Completed
  /\ transport_open s' = false
  /\ pending s' = []
  /\ chunks s' = (chunks s ++ aborted_chunks (pending s))%list
  /\ length (aborted_chunks (pending s)) = N
  /\ (forall fp,
         In fp (pending s) -> In (RejectedValue fp Aborted) (chunks s'))
  /\ elapsed s' = abortDelay s.
Proof.
  cbv zeta.
  destruct (abortDelay s - elapsed s) as [|d] eqn:Hd; [lia|].
  rewrite run_until_deadline by (assumption || lia).
  cbn [phase transport_open pending chunks elapsed].
  repeat split.
  - unfold aborted_chunks. now rewrite length_map.
  - intros fp Hin. apply in_or_app. right.
    unfold aborted_chunks.
    apply (in_map (fun p => RejectedValue p Aborted)), Hin.
Qed.

End Abort.

(* ================================================================== *)
(** * Further properties of data.ts *)
(* ================================================================== *)

(** ** Headers that are not set stay as they are *)

Lemma same_name_other (name name' : string) (h : string * string) :
  JsString.toLowerCase name' <> JsString.toLowerCase name ->
  HeaderList.same_name name h = true ->
  HeaderList.same_name name' h = false.
Proof.
  unfold HeaderList.same_name. intros Hdiff Hsame.
  apply String.eqb_eq in Hsame. apply String.eqb_neq.
  rewrite Hsame. intros Heq. apply Hdiff. now symmetry.
Qed.

Lemma filter_other_name (name name' : string) (hs : Headers) :
  JsString.toLowerCase name' <> JsString.toLowerCase name ->
  filter (HeaderList.same_name name')
    (filter (fun h => negb (HeaderList.same_name name h)) hs)
  = filter (HeaderList.same_name name') hs.
Proof.
  intros Hdiff. rewrite filter_filter. apply filter_ext. intros h.
  destruct (HeaderList.same_name name h) eqn:E; [|reflexivity].
  now rewrite (@same_name_other name name' h Hdiff E).
Qed.

Lemma filter_set_other (name name' value : string) (hs : Headers) :
  JsString.toLowerCase name' <> JsString.toLowerCase name ->
  filter (HeaderList.same_name name') (HeaderList.set name value hs)
  = filter (HeaderList.same_name name') hs.
Proof.
  intros Hdiff. unfold HeaderList.set.
  destruct (HeaderList.has name hs) eqn:Hhas.
  - clear Hhas. induction hs as [|h hs IH]; [reflexivity|].
    cbn [HeaderList.replace_first].
    destruct (HeaderList.same_name name h) eqn:E.
    + cbn [filter]. rewrite same_name_fst.
      rewrite (@same_name_other name name' h Hdiff E).
      now apply filter_other_name.
    + cbn [filter]. now rewrite IH.
  - rewrite filter_app. cbn [filter].
    assert (Hnew : HeaderList.same_name name' (name, value) = false).
    { apply (@same_name_other name name' (name, value) Hdiff), same_name_refl. }
    rewrite Hnew. apply app_nil_r.
Qed.

Lemma get_set_other (name name' value : string) (hs : Headers) :
  JsString.toLowerCase name' <> JsString.toLowerCase name ->
  HeaderList.get name' (HeaderList.set name value hs)
  = HeaderList.get name' hs.
Proof.
  intros Hdiff. unfold HeaderList.get. now rewrite filter_set_other.
Qed.

(** ** Closed forms of the two normalisation steps *)

Lemma stripIndexParam_closed (r : Request) :
  stripIndexParam r
  = new_Request
      (set_searchParams (url r)
         (SearchParams.delete "index" (searchParams (url r))
          ++ filter (fun p => (fst p =? "index") && JsString.truthy (snd p))
               (searchParams (url r)))%list)
      r.
Proof.
  unfold stripIndexParam.
  rewrite collect_truthy, append_all. cbn [app].
  rewrite kept_index_pairs. reflexivity.
Qed.

Lemma normalized_closed (r : Request) :
  stripDataParam (stripIndexParam r)
  = new_Request
      (set_searchParams (url r) (reordered_query (searchParams (url r)))) r.
Proof.
  unfold stripDataParam at 1.
  rewrite <- (normalized_query r).
  rewrite stripIndexParam_closed. reflexivity.
Qed.

Lemma filter_all (A : Type) (f : A -> bool) (l : list A) :
  existsb f l = false -> filter (fun x => negb (f x)) l = l.
Proof.
  induction l as [|x l IH]; [reflexivity|].
  cbn [existsb filter]. intros H.
  apply orb_false_iff in H. destruct H as [Hx Hl].
  rewrite Hx. cbn [negb]. now rewrite IH.
Qed.

(** ** What the legacy entry points do with throws *)

Section LegacyThrows.

Context {responses : Responses}.

Variable loadContext : AppLoadContext.
Variable routeId : string.
Variable pathParams : Params.
Variable incoming : Request.

Local Abbreviation args := (handlerArgs loadContext pathParams incoming).

(** X1.  A thrown value that is not a response (an [Error], a string,
    [undefined], ...) leaves [callRouteAction] and [callRouteLoader] as it
    was thrown, whatever the value of [isRemixRouterRequest]. *)
Theorem legacy_rethrows_plain_errors
    (handler : DataFunction) (isRemixRouterRequest : option bool)
    (thrown : JsValue)
    (Hthrows : handler args = Throw thrown)
    (Hplain : isResponse thrown = false) :
  callRouteAction loadContext routeId (Some handler) pathParams incoming
    isRemixRouterRequest = Throw thrown
  /\ callRouteLoader loadContext routeId (Some handler) pathParams incoming
       isRemixRouterRequest = Throw thrown.
Proof.
  unfold callRouteAction, callRouteLoader.
  unfold handlerArgs in Hthrows. rewrite Hthrows.
  cbn [try_catch]. unfold isResponse in Hplain.
  destruct (asResponse thrown); [discriminate|].
  split; reflexivity.
Qed.

(** X2.  Unless the handler throws a response, the legacy entry points
    and the RR entry points have the same outcome, for every value of
    [isRemixRouterRequest]: the flag and the catch block only matter for
    thrown responses. *)
Theorem legacy_agrees_with_rr
    (handler : DataFunction) (isRemixRouterRequest : option bool)
    (Hno_response : forall r, handler args <> Throw (JResponse r)) :
  callRouteAction loadContext routeId (Some handler) pathParams incoming
    isRemixRouterRequest
  = callRouteActionRR loadContext handler pathParams incoming routeId
  /\ callRouteLoader loadContext routeId (Some handler) pathParams incoming
       isRemixRouterRequest
     = callRouteLoaderRR loadContext handler pathParams incoming routeId.
Proof.
  unfold callRouteAction, callRouteLoader, callRouteActionRR,
    callRouteLoaderRR.
  unfold handlerArgs in Hno_response.
  destruct (handler _) as [v|e] eqn:E.
  - split; reflexivity.
  - cbn [try_catch bind].
    destruct e; try (split; reflexivity).
    now destruct (Hno_response r).
Qed.

(** X3.  A response only ever leaves [callRouteAction] or
    [callRouteLoader] as a throw when [isRemixRouterRequest] is set, the
    handler threw it, it is not a redirect, and it has been tagged with
    [X-Remix-Catch]; in particular without the flag no response is ever
    thrown, and a redirect never is. *)
Theorem thrown_response_was_caught
    (handler : option DataFunction) (isRemixRouterRequest : option bool)
    (r : Response)
    (Hthrown :
       callRouteAction loadContext routeId handler pathParams incoming
         isRemixRouterRequest = Throw (JResponse r)
       \/ callRouteLoader loadContext routeId handler pathParams incoming
            isRemixRouterRequest = Throw (JResponse r)) :
  flag_set isRemixRouterRequest = true
  /\ exists h r0,
      handler = Some h
      /\ h args = Throw (JResponse r0)
      /\ isRedirectResponse r0 = false
      /\ headersImmutable r0 = false
      /\ r = set_header "X-Remix-Catch" "yes" r0.
Proof.
  unfold callRouteAction, callRouteLoader, handlerArgs in *.
  destruct handler as [h|]; [|destruct Hthrown; discriminate].
  destruct (h _) as [v|e] eqn:E; cbn [try_catch bind] in Hthrown.
  - destruct (is_undefined v); destruct Hthrown; discriminate.
  - destruct (asResponse e) as [r0|] eqn:Er.
    + destruct e; try discriminate. injection Er as ->.
      destruct (isRedirectResponse r0) eqn:Hred; cbn [negb] in Hthrown.
      * cbn [bind is_undefined] in Hthrown.
        destruct Hthrown; discriminate.
      * unfold headers_set in Hthrown.
        destruct (headersImmutable r0) eqn:Himm; cbn [bind] in Hthrown;
          [destruct Hthrown; discriminate|].
        destruct (flag_set isRemixRouterRequest);
          cbn [bind is_undefined] in Hthrown.
        -- split; [reflexivity|]. exists h, r0.
           repeat split; try assumption; try reflexivity.
           destruct Hthrown as [Heq|Heq]; now injection Heq.
        -- destruct Hthrown; discriminate.
    + cbn [bind] in Hthrown.
      destruct Hthrown as [Heq|Heq]; injection Heq as ->; discriminate.
Qed.

(** X4.  When the caught response has mutable headers, tagging it
    changes nothing but the [X-Remix-Catch] header: that header has the
    single value [yes] afterwards, whatever values it had before, every
    header of another name reads as it did on the thrown response, and
    status, status text and body are untouched. *)
Theorem caught_response_keeps_rest
    (handler : DataFunction) (isRemixRouterRequest : option bool)
    (response : Response)
    (Hthrows : handler args = Throw (JResponse response))
    (Hplain : isRedirectResponse response = false)
    (Hmutable : headersImmutable response = false) :
  exists tagged,
    callRouteAction loadContext routeId (Some handler) pathParams incoming
      isRemixRouterRequest
    = (if flag_set isRemixRouterRequest
       then Throw (JResponse tagged) else Normal tagged)
    /\ callRouteLoader loadContext routeId (Some handler) pathParams
         incoming isRemixRouterRequest
       = (if flag_set isRemixRouterRequest
          then Throw (JResponse tagged) else Normal tagged)
    /\ status tagged = status response
    /\ statusText tagged = statusText response
    /\ body tagged = body response
    /\ HeaderList.get "X-Remix-Catch" (headers tagged) = Some "yes"
    /\ forall name,
        JsString.toLowerCase name <> "x-remix-catch" ->
        HeaderList.get name (headers tagged)
        = HeaderList.get name (headers response).
Proof.
  exists (set_header "X-Remix-Catch" "yes" response).
  unfold callRouteAction, callRouteLoader.
  unfold handlerArgs in Hthrows. rewrite Hthrows.
  cbn [try_catch asResponse]. rewrite Hplain. cbn [negb].
  unfold headers_set. rewrite Hmutable. cbn [bind].
  repeat split.
  - now destruct (flag_set isRemixRouterRequest).
  - now destruct (flag_set isRemixRouterRequest).
  - apply get_set.
  - intros name Hname. cbn [headers set_header].
    apply get_set_other. exact Hname.
Qed.

(** X5.  In legacy mode a caught response with mutable headers is
    returned as data, and [extractData] reads from it what it would have
    read from the response the handler threw: the tag does not disturb
    the content type. *)
Theorem extractData_ignores_tag {platform : Json}
    (handler : DataFunction) (isRemixRouterRequest : option bool)
    (response : Response)
    (Hthrows : handler args = Throw (JResponse response))
    (Hplain : isRedirectResponse response = false)
    (Hmutable : headersImmutable response = false)
    (Hlegacy : flag_set isRemixRouterRequest = false) :
  (returned <-
     callRouteAction loadContext routeId (Some handler) pathParams incoming
       isRemixRouterRequest ;;
   extractData returned)
  = extractData response
  /\ (returned <-
        callRouteLoader loadContext routeId (Some handler) pathParams
          incoming isRemixRouterRequest ;;
      extractData returned)
     = extractData response.
Proof.
  unfold callRouteAction, callRouteLoader.
  unfold handlerArgs in Hthrows. rewrite Hthrows.
  cbn [try_catch asResponse]. rewrite Hplain. cbn [negb].
  unfold headers_set. rewrite Hmutable. cbn [bind]. rewrite Hlegacy.
  cbn [bind is_undefined toResponse asResponse].
  assert (Hsame :
    extractData (set_header "X-Remix-Catch" "yes" response)
    = extractData response).
  { unfold extractData, response_json, response_text.
    cbn [headers body set_header].
    rewrite get_set_other; [reflexivity|]. cbn. discriminate. }
  now rewrite Hsame.
Qed.

(** X11.  Data returned by a handler and read back from the response of
    any of the four entry points with [extractData] is the parse of the
    body [json] wrote, provided [json] labels its responses with a JSON
    content type. *)
Theorem wrapped_result_round_trip {platform : Json}
    (handler : DataFunction) (isRemixRouterRequest : option bool)
    (data : JsValue)
    (Hresult : handler args = Normal data)
    (Hdefined : data <> JUndefined)
    (Hdata : isResponse data = false)
    (Hlabel :
       exists contentType,
         HeaderList.get "Content-Type" (headers (json data))
         = Some contentType
         /\ contains_json_token contentType) :
  let parsed := JSON_parse (body (json data)) in
  (returned <-
     callRouteAction loadContext routeId (Some handler) pathParams incoming
       isRemixRouterRequest ;;
   extractData returned) = parsed
  /\ (returned <-
        callRouteLoader loadContext routeId (Some handler) pathParams
          incoming isRemixRouterRequest ;;
      extractData returned) = parsed
  /\ (returned <-
        callRouteActionRR loadContext handler pathParams incoming routeId ;;
      extractData returned) = parsed
  /\ (returned <-
        callRouteLoaderRR loadContext handler pathParams incoming routeId ;;
      extractData returned) = parsed.
Proof.
  unfold callRouteAction, callRouteLoader, callRouteActionRR,
    callRouteLoaderRR.
  unfold handlerArgs in Hresult. rewrite Hresult.
  cbn [try_catch bind].
  assert (Hdef : is_undefined data = false) by now destruct data.
  rewrite Hdef. cbn [bind]. unfold toResponse.
  unfold isResponse in Hdata.
  destruct (asResponse data); [discriminate|].
  destruct Hlabel as [contentType [Hget Htoken]].
  assert (Hjson : extractData (json data) = JSON_parse (body (json data))).
  { unfold extractData. rewrite Hget, (token_nonempty Htoken).
    apply test_iff_token in Htoken. now rewrite Htoken. }
  cbv zeta. now rewrite Hjson.
Qed.

End LegacyThrows.

(** ** More on request normalisation *)

Lemma reordered_again (q : URLSearchParams) :
  reordered_query (reordered_query q) = reordered_query q.
Proof.
  unfold reordered_query.
  rewrite !filter_app, !filter_filter.
  rewrite (@filter_false _
    (fun p => (fst p =? "index") && JsString.truthy (snd p)
              && (negb (fst p =? "index") && negb (fst p =? "_data")))).
  2:{ intros [k v]. cbn [fst snd]. destruct (k =? "index"); [|reflexivity].
      destruct (JsString.truthy v); reflexivity. }
  rewrite (@filter_false _
    (fun p => negb (fst p =? "index") && negb (fst p =? "_data")
              && ((fst p =? "index") && JsString.truthy (snd p)))).
  2:{ intros [k v]. cbn [fst snd]. destruct (k =? "index"); [reflexivity|].
      cbn [negb andb]. apply andb_false_r. }
  rewrite app_nil_r. cbn [app]. f_equal; apply filter_ext; intros [k v];
    cbn [fst snd].
  - now destruct (negb (k =? "index") && negb (k =? "_data")).
  - now destruct ((k =? "index") && JsString.truthy v).
Qed.

(** X6.  Normalising a request twice is the same as normalising it
    once. *)
Theorem normalisation_idempotent (r : Request) :
  stripDataParam (stripIndexParam (stripDataParam (stripIndexParam r)))
  = stripDataParam (stripIndexParam r).
Proof.
  rewrite (normalized_closed (stripDataParam (stripIndexParam r))).
  rewrite (normalized_closed r).
  cbn [url new_Request searchParams set_searchParams method req_headers
         req_body origin pathname hash].
  now rewrite reordered_again.
Qed.

(** X7.  The two steps can be taken in either order: stripping [_data]
    first and the empty [index] parameters second gives the same
    request. *)
Theorem strip_steps_commute (r : Request) :
  stripIndexParam (stripDataParam r) = stripDataParam (stripIndexParam r).
Proof.
  rewrite normalized_closed, stripIndexParam_closed.
  unfold stripDataParam, reordered_query, SearchParams.delete.
  cbn [url new_Request searchParams set_searchParams method req_headers
         req_body origin pathname hash].
  rewrite !filter_filter.
  assert (Hfirst :
    filter (fun p => negb (fst p =? "_data") && negb (fst p =? "index"))
      (searchParams (url r))
    = filter (fun p => negb (fst p =? "index") && negb (fst p =? "_data"))
        (searchParams (url r))).
  { apply filter_ext. intros p. apply andb_comm. }
  assert (Hsecond :
    filter
      (fun p => negb (fst p =? "_data")
                && ((fst p =? "index") && JsString.truthy (snd p)))
      (searchParams (url r))
    = filter (fun p => (fst p =? "index") && JsString.truthy (snd p))
        (searchParams (url r))).
  { apply filter_ext. intros [k v]. cbn [fst snd].
    destruct (k =? "index") eqn:K; [|now rewrite andb_false_r].
    apply String.eqb_eq in K. subst k. reflexivity. }
  now rewrite Hfirst, Hsecond.
Qed.

(** X8.  A request whose URL has neither a [_data] nor an [index]
    parameter keeps, through the normalisation, its decoded query
    parameters with their order, the origin, pathname and fragment of
    its URL, and its method, headers and body.  (How the query is
    written out again in the new URL text is not part of this.) *)
Theorem clean_request_unchanged (r : Request)
    (Hno_data : SearchParams.has "_data" (searchParams (url r)) = false)
    (Hno_index : SearchParams.has "index" (searchParams (url r)) = false) :
  let r' := stripDataParam (stripIndexParam r) in
  searchParams (url r') = searchParams (url r)
  /\ origin (url r') = origin (url r)
  /\ pathname (url r') = pathname (url r)
  /\ hash (url r') = hash (url r)
  /\ method r' = method r
  /\ req_headers r' = req_headers r
  /\ req_body r' = req_body r.
Proof.
  cbv zeta. rewrite normalized_closed. unfold reordered_query.
  cbn [url new_Request searchParams set_searchParams method req_headers
         req_body origin pathname hash].
  unfold SearchParams.has in *.
  rewrite <- (filter_filter (fun p => JsString.truthy (snd p))
                (fun p => fst p =? "index")).
  rewrite (filter_absent _ _ Hno_index). cbn [filter]. rewrite app_nil_r.
  rewrite <- filter_filter.
  rewrite (filter_all _ _ Hno_index), (filter_all _ _ Hno_data).
  repeat split.
Qed.

(** X9.  [stripIndexParam] on its own touches the [index] parameters
    only: the values of every other name, [_data] among them, and the
    order of all pairs that are not [index] are as before; of the [index]
    values the non-empty ones are kept, in their order. *)
Theorem stripIndexParam_frame (r : Request) :
  let q := searchParams (url r) in
  let q' := searchParams (url (stripIndexParam r)) in
  SearchParams.delete "index" q' = SearchParams.delete "index" q
  /\ SearchParams.getAll "index" q'
     = filter JsString.truthy (SearchParams.getAll "index" q)
  /\ (forall name,
         name <> "index" ->
         SearchParams.getAll name q' = SearchParams.getAll name q)
  /\ origin (url (stripIndexParam r)) = origin (url r)
  /\ pathname (url (stripIndexParam r)) = pathname (url r)
  /\ hash (url (stripIndexParam r)) = hash (url r)
  /\ method (stripIndexParam r) = method r
  /\ req_headers (stripIndexParam r) = req_headers r
  /\ req_body (stripIndexParam r) = req_body r.
Proof.
  cbv zeta. rewrite stripIndexParam_closed.
  cbn [url new_Request searchParams set_searchParams method req_headers
         req_body origin pathname hash].
  set (q := searchParams (url r)).
  assert (Hkept_deleted :
    SearchParams.delete "index"
      (filter (fun p => (fst p =? "index") && JsString.truthy (snd p)) q)
    = []).
  { unfold SearchParams.delete. rewrite filter_filter.
    apply filter_false. intros [k v]. cbn [fst snd].
    destruct (k =? "index"); [|reflexivity].
    destruct (JsString.truthy v); reflexivity. }
  split.
  { unfold SearchParams.delete at 1. rewrite filter_app.
    fold (SearchParams.delete "index" (SearchParams.delete "index" q)).
    fold (SearchParams.delete "index"
            (filter (fun p => (fst p =? "index") && JsString.truthy (snd p))
               q)).
    rewrite Hkept_deleted, app_nil_r.
    unfold SearchParams.delete. rewrite filter_filter.
    apply filter_ext. intros p. now destruct (negb (fst p =? "index")). }
  split.
  { rewrite getAll_app, getAll_delete. cbn [app].
    rewrite <- kept_index_pairs.
    unfold SearchParams.getAll.
    induction (filter JsString.truthy
                 (map snd (filter (fun p => fst p =? "index") q)))
      as [|v l IH]; [reflexivity|].
    cbn [map filter fst snd]. cbn [String.eqb Ascii.eqb Bool.eqb].
    cbn [map snd]. now rewrite IH. }
  split.
  { intros name Hname. rewrite getAll_app.
    unfold SearchParams.delete. rewrite !getAll_filter.
    rewrite (@filter_false _
      (fun p => (fst p =? "index") && JsString.truthy (snd p)
                && (fst p =? name))).
    - rewrite app_nil_r. unfold SearchParams.getAll. f_equal.
      apply filter_ext. intros [k v]. cbn [fst snd].
      destruct (k =? "index") eqn:K; [|reflexivity].
      apply String.eqb_eq in K. subst k.
      cbn [negb andb]. symmetry. apply String.eqb_neq.
      intros Heq. now apply Hname.
    - intros [k v]. cbn [fst snd].
      destruct (k =? "index") eqn:K; [|reflexivity].
      apply String.eqb_eq in K. subst k.
      destruct (JsString.truthy v); [|reflexivity].
      cbn [andb]. apply String.eqb_neq. intros Heq. now apply Hname. }
  repeat split.
Qed.

(** ** More on extractData *)

Lemma token_is_substring (contentType : string) :
  contains_json_token contentType ->
  JsString.includes "application/json" contentType = true.
Proof.
  intros [before [after [-> _]]].
  apply includes_app_r, includes_prefix.
Qed.

(** X10.  A response whose [Content-Type] does not even contain the text
    [application/json] (no such header, another type, a vendor type such
    as [application/vnd.api+json], or another letter case) is read as
    text. *)
Theorem extractData_needs_substring {platform : Json} (response : Response)
    (Hother :
       forall contentType,
         HeaderList.get "Content-Type" (headers response) = Some contentType ->
         JsString.includes "application/json" contentType = false) :
  extractData response = Normal (JString (body response)).
Proof.
  unfold extractData, response_text.
  destruct (HeaderList.get "Content-Type" (headers response))
    as [contentType|]; [|reflexivity].
  destruct (ApplicationJsonRegExp.test contentType) eqn:E.
  - apply test_iff_token, token_is_substring in E.
    now rewrite (Hother _ eq_refl) in E.
  - now rewrite andb_false_r.
Qed.

(* ================================================================== *)
(** * The document split of the streaming tests *)
(* ================================================================== *)

Section DocumentSplit.

Import StringOps.

Lemma take_drop (n : nat) (s : string) : take n s ++ drop n s = s.
Proof.
  revert s. induction n as [|n IH]; intros [|c s]; cbn; try reflexivity.
  now rewrite IH.
Qed.

Lemma take_all (n : nat) (s : string) :
  String.length s <= n -> take n s = s.
Proof.
  revert s. induction n as [|n IH]; intros [|c s]; cbn; try reflexivity.
  - lia.
  - intros Hle. rewrite IH; [reflexivity|lia].
Qed.

Lemma length_drop (n : nat) (s : string) :
  String.length (drop n s) = String.length s - n.
Proof.
  revert s. induction n as [|n IH]; intros [|c s]; cbn; try reflexivity.
  apply IH.
Qed.

Lemma length_append (a b : string) :
  String.length (a ++ b) = String.length a + String.length b.
Proof. induction a as [|c a IH]; cbn; [reflexivity|now rewrite IH]. Qed.

Lemma append_assoc (a b c : string) : (a ++ b) ++ c = a ++ b ++ c.
Proof. induction a as [|x a IH]; cbn; [reflexivity|now rewrite IH]. Qed.

Lemma take_app (a b : string) (n : nat) :
  take (String.length a + n) (a ++ b) = a ++ take n b.
Proof. induction a as [|c a IH]; cbn; [reflexivity|now rewrite IH]. Qed.

Lemma drop_app (a b : string) (n : nat) :
  drop (String.length a + n) (a ++ b) = drop n b.
Proof. induction a as [|c a IH]; cbn; [reflexivity|exact IH]. Qed.

Lemma take_front (a b : string) : take (String.length a) (a ++ b) = a.
Proof. induction a as [|c a IH]; cbn; [now destruct b|now rewrite IH]. Qed.

Lemma drop_front (a b : string) : drop (String.length a) (a ++ b) = b.
Proof. induction a as [|c a IH]; cbn; [reflexivity|exact IH]. Qed.

(** Cutting at a position that is not negative. *)
Lemma slice_prefix (s : string) (k : Z) :
  (0 <= k)%Z ->
  slice s 0 (Some k) = take (Nat.min (Z.to_nat k) (String.length s)) s.
Proof.
  intros Hk. unfold slice, clamp_index.
  destruct (Z.ltb_spec k 0) as [Hneg|_]; [lia|].
  cbn [Z.ltb Z.compare Z.to_nat Nat.min drop]. now rewrite Nat.sub_0_r.
Qed.

Lemma slice_suffix (s : string) (k : Z) :
  (0 <= k)%Z ->
  slice s k None = drop (Nat.min (Z.to_nat k) (String.length s)) s.
Proof.
  intros Hk. unfold slice, clamp_index.
  destruct (Z.ltb_spec k 0) as [Hneg|_]; [lia|].
  apply take_all. rewrite length_drop. lia.
Qed.

Lemma indexOf_lower_bound (hay needle : string) :
  (-1 <= indexOf hay needle)%Z.
Proof. unfold indexOf. destruct (first_index needle hay); lia. Qed.

(** The first occurrence: the text before it, and no occurrence starts
    earlier. *)
Lemma first_index_Some (needle : string) :
  forall hay i,
    first_index needle hay = Some i ->
    exists after,
      hay = take i hay ++ needle ++ after
      /\ String.length (take i hay) = i
      /\ forall before' after',
          hay = before' ++ needle ++ after' -> i <= String.length before'.
Proof.
  induction hay as [|c hay IH]; intros i Hi; cbn [first_index] in Hi.
  - destruct (JsString.strip_prefix needle "") as [rest|] eqn:E;
      [|discriminate].
    injection Hi as <-. apply strip_prefix_Some in E.
    exists rest. cbn [take]. repeat split; [exact E|]. intros; lia.
  - destruct (JsString.strip_prefix needle (String c hay)) as [rest|] eqn:E.
    + injection Hi as <-. apply strip_prefix_Some in E.
      exists rest. cbn [take]. repeat split; [exact E|]. intros; lia.
    + destruct (first_index needle hay) as [j|] eqn:Ej; [|discriminate].
      injection Hi as <-.
      destruct (IH j eq_refl) as [after [Hhay [Hlen Hmin]]].
      exists after. cbn [take String.length append].
      repeat split.
      * now rewrite <- Hhay.
      * now rewrite Hlen.
      * intros before' after' Hsplit.
        destruct before' as [|c' before'].
        -- cbn [append] in Hsplit. rewrite Hsplit, strip_prefix_app in E.
           discriminate.
        -- cbn [append] in Hsplit. injection Hsplit as _ Hsplit.
           cbn [String.length]. specialize (Hmin _ _ Hsplit). lia.
Qed.

Lemma first_index_None (needle hay : string) :
  first_index needle hay = None -> JsString.includes needle hay = false.
Proof.
  induction hay as [|c hay IH]; cbn [first_index]; rewrite includes_unfold.
  - now destruct (JsString.strip_prefix needle "").
  - destruct (JsString.strip_prefix needle (String c hay)); [discriminate|].
    destruct (first_index needle hay); [discriminate|].
    intros _. now apply IH.
Qed.

(** X12.  The two parts the tests cut a document into always make up the
    whole document, closing tag or not. *)
Theorem document_split_is_partition (html : string) :
  criticalHTML html ++ deferredHTML html = html.
Proof.
  unfold criticalHTML, deferredHTML.
  pose proof (indexOf_lower_bound html "</html>") as Hlow.
  rewrite slice_prefix, slice_suffix by lia.
  apply take_drop.
Qed.

(** X13.  When the document has a closing [</html>] tag, the critical
    part is the text up to and including the first such tag, and the
    deferred part is all that follows it. *)
Theorem document_split_at_first_tag (html : string)
    (Hclosed : JsString.includes "</html>" html = true) :
  exists before,
    criticalHTML html = before ++ "</html>"
    /\ html = before ++ "</html>" ++ deferredHTML html
    /\ forall before' after',
        html = before' ++ "</html>" ++ after' ->
        String.length before <= String.length before'.
Proof.
  unfold criticalHTML, deferredHTML, indexOf.
  destruct (first_index "</html>" html) as [i|] eqn:Ei.
  - destruct (first_index_Some _ _ Ei) as [after [Hhay [Hlen Hmin]]].
    set (before := take i html) in *. clearbody before.
    clear Ei Hclosed. subst html. exists before.
    rewrite slice_prefix, slice_suffix by lia.
    assert (Hcut :
      Nat.min (Z.to_nat (Z.of_nat i + 7))
        (String.length (before ++ "</html>" ++ after))
      = String.length (before ++ "</html>")).
    { rewrite !length_append, Hlen. cbn [String.length]. lia. }
    rewrite Hcut, <- append_assoc, take_front, drop_front.
    repeat split.
    + apply append_assoc.
    + rewrite Hlen. intros before' after' Hsplit.
      rewrite append_assoc in Hsplit. exact (Hmin _ _ Hsplit).
  - apply first_index_None in Ei. rewrite Ei in Hclosed. discriminate.
Qed.

(** X14.  When the document has no closing [</html>] tag, [indexOf]
    answers [-1] and the cut falls after the sixth code unit: the
    critical part is the first six code units of the document, not the
    whole document. *)
Theorem document_split_without_tag (html : string)
    (Hopen : JsString.includes "</html>" html = false) :
  criticalHTML html = take 6 html /\ deferredHTML html = drop 6 html.
Proof.
  unfold criticalHTML, deferredHTML, indexOf.
  destruct (first_index "</html>" html) as [i|] eqn:Ei.
  - destruct (first_index_Some _ _ Ei) as [after [Hhay _]].
    rewrite Hhay in Hopen.
    rewrite includes_app_r in Hopen; [discriminate|apply includes_prefix].
  - rewrite slice_prefix, slice_suffix by lia.
    change (Z.to_nat (-1 + 7)) with 6.
    destruct (Nat.min_spec 6 (String.length html)) as [[_ ->]|[Hle ->]].
    + split; reflexivity.
    + split.
      * now rewrite !take_all by lia.
      * clear Ei Hopen. revert Hle.
        generalize 6. intros n. revert n.
        induction html as [|c html IH]; intros [|n] Hle; cbn in *;
          try reflexivity; try lia.
        apply IH. lia.
Qed.

End DocumentSplit.

(* ================================================================== *)
(** * monitorConsole *)
(* ================================================================== *)

Lemma append_empty_r (s : string) : s ++ "" = s.
Proof. induction s as [|c s IH]; cbn; [reflexivity|now rewrite IH]. Qed.

Lemma includes_split (needle hay : string) :
  JsString.includes needle hay = true ->
  exists before after, hay = before ++ needle ++ after.
Proof.
  induction hay as [|c hay IH]; rewrite includes_unfold.
  - destruct (JsString.strip_prefix needle "") as [rest|] eqn:E;
      [|discriminate].
    intros _. apply strip_prefix_Some in E. now exists "", rest.
  - destruct (JsString.strip_prefix needle (String c hay)) as [rest|] eqn:E.
    + intros _. apply strip_prefix_Some in E. now exists "", rest.
    + intros Hin. destruct (IH Hin) as [before [after ->]].
      now exists (String c before), after.
Qed.

Lemma includes_app_l (needle hay rest : string) :
  JsString.includes needle hay = true ->
  JsString.includes needle (hay ++ rest) = true.
Proof.
  intros Hin. destruct (includes_split _ _ Hin) as [before [after ->]].
  rewrite !append_assoc. apply includes_app_r, includes_prefix.
Qed.

Lemma includes_self (s : string) : JsString.includes s s = true.
Proof.
  rewrite <- (append_empty_r s) at 2. apply includes_prefix.
Qed.

Lemma includes_join (sep x : string) (parts : list string) :
  In x parts -> JsString.includes x (JsString.join sep parts) = true.
Proof.
  induction parts as [|p parts IH]; [intros []|].
  intros [->|Hin].
  - destruct parts as [|p' parts]; cbn [JsString.join].
    + apply includes_self.
    + apply includes_prefix.
  - destruct parts as [|p' parts]; [destruct Hin|].
    change (JsString.join sep (p :: p' :: parts))
      with (p ++ sep ++ JsString.join sep (p' :: parts)).
    apply includes_app_r, includes_app_r, IH, Hin.
Qed.

Section MonitorConsole.

Context {stringify : Stringify}.

(** The lines the loop collects: one for each message that is not a
    DevTools notice, in the order of the messages. *)
Lemma collected_errors (messages : list ConsoleMessage) (acc : list string) :
  fold_left
    (fun (errors : list string) (message : ConsoleMessage) =>
       let logs : list JsValue := [] in
       let args := message in
       match args with
       | arg0 :: _ =>
           if is_devtools_notice arg0 then errors
           else (errors ++ [unexpected_log (logs ++ [arg0])])%list
       | [] => (errors ++ [unexpected_log logs])%list
       end)
    messages acc
  = (acc
     ++ map (fun message => unexpected_log (firstn 1 message))
          (filter
             (fun message =>
                match message with
                | arg0 :: _ => negb (is_devtools_notice arg0)
                | [] => true
                end)
             messages))%list.
Proof.
  revert acc. induction messages as [|m messages IH]; intros acc.
  - cbn. now rewrite app_nil_r.
  - cbn [fold_left filter]. rewrite IH.
    destruct m as [|arg0 rest].
    + cbn [map firstn]. now rewrite <- app_assoc.
    + destruct (is_devtools_notice arg0); cbn [negb]; [reflexivity|].
      cbn [map firstn app]. now rewrite <- app_assoc.
Qed.

(** X15.  The console check passes exactly when every collected message
    has a string as its first argument and that string contains the
    DevTools notice; a message of another text, of a first argument that
    is not a string, or of no argument at all makes it fail. *)
Theorem assertConsole_passes_iff (messages : list ConsoleMessage) :
  assertConsole messages = Normal tt
  <-> Forall
        (fun message =>
           exists text rest,
             message = JString text :: rest
             /\ JsString.includes devtoolsNotice text = true)
        messages.
Proof.
  unfold assertConsole. rewrite collected_errors. cbn [app].
  destruct messages as [|m messages]; [split; [constructor|reflexivity]|].
  cbn [length Nat.eqb].
  induction (m :: messages) as [|m' l IH]; [split; [constructor|reflexivity]|].
  cbn [filter].
  destruct m' as [|arg0 rest].
  - cbn [map length Nat.eqb]. split; [discriminate|].
    intros Hall. inversion Hall as [|? ? [text [rest [Heq _]]] _].
    discriminate Heq.
  - destruct (is_devtools_notice arg0) eqn:E; cbn [negb].
    + rewrite IH. split.
      * intros Hall. constructor; [|exact Hall].
        destruct arg0; try discriminate. now exists text, rest.
      * intros Hall. now inversion Hall.
    + cbn [map length Nat.eqb]. split; [discriminate|].
      intros Hall.
      inversion Hall as [|? ? [text [rest' [Heq Hnotice]]] _].
      injection Heq as -> _. cbn [is_devtools_notice] in E.
      rewrite Hnotice in E. discriminate.
Qed.

(** X16.  Every collected message that is not a DevTools notice is
    reported: the check throws an [Error] whose message starts with the
    heading [Unexpected console.log's:] and a line break, and contains,
    after the heading, the line made for that message from its first
    argument. *)
Theorem assertConsole_reports (messages : list ConsoleMessage)
    (message : ConsoleMessage)
    (Hcollected : In message messages)
    (Hunexpected :
       match message with
       | arg0 :: _ => is_devtools_notice arg0 = false
       | [] => True
       end) :
  exists lines,
    assertConsole messages
    = Throw (JError ("Unexpected console.log's:" ++ newline ++ lines))
    /\ JsString.includes (unexpected_log (firstn 1 message)) lines = true.
Proof.
  unfold assertConsole. rewrite collected_errors. cbn [app].
  destruct messages as [|m messages]; [destruct Hcollected|].
  cbn [length Nat.eqb].
  set (errors :=
    map (fun message => unexpected_log (firstn 1 message))
      (filter
         (fun message =>
            match message with
            | arg0 :: _ => negb (is_devtools_notice arg0)
            | [] => true
            end)
         (m :: messages))).
  assert (Hin : In (unexpected_log (firstn 1 message)) errors).
  { unfold errors.
    apply (in_map (fun message => unexpected_log (firstn 1 message))).
    apply filter_In. split; [exact Hcollected|].
    destruct message as [|arg0 rest]; [reflexivity|].
    now rewrite Hunexpected. }
  destruct errors as [|e others] eqn:Eerrors; [destruct Hin|].
  cbn [length Nat.eqb]. eexists. split; [reflexivity|].
  apply includes_app_l. now apply includes_join.
Qed.

End MonitorConsole.

(* ================================================================== *)
(** * The entry file of the aborted-render fixture *)
(* ================================================================== *)

Section RenderCallbacks.

Variable responseStatusCode : Z.
Variable rendered : string.

(** Either set of callbacks, with the callback it answers to. *)
Variable step : EntryState -> RenderCallback -> EntryState.
Variable wait : RenderCallback.

Hypothesis step_wait :
  forall st, step st wait = respond responseStatusCode rendered st.
Hypothesis step_pending :
  forall st call,
    keeps_pending wait call = true ->
    step st call
    = (if isRenderError call
       then match call with
            | OnError error => renderError error st
            | _ => st
            end
       else st).
Hypothesis step_shell_error :
  forall st error, step st (OnShellError error) = shellError error st.

Lemma settled_stays (calls : list RenderCallback) :
  forall st outcome,
    promise st = Some outcome ->
    promise (fold_left step calls st) = Some outcome.
Proof.
  induction calls as [|call calls IH]; intros st outcome Hsettled;
    [exact Hsettled|].
  cbn [fold_left]. apply IH.
  destruct (keeps_pending wait call) eqn:Hkeep.
  - rewrite (step_pending st call Hkeep).
    destruct call; cbn; assumption.
  - destruct call; destruct wait; try discriminate Hkeep;
      rewrite ?step_shell_error; try rewrite step_wait;
      cbn [respond shellError promise settle_promise];
      now rewrite Hsettled.
Qed.

Lemma pending_prefix (calls : list RenderCallback) :
  forall st,
    forallb (keeps_pending wait) calls = true ->
    let st' := fold_left step calls st in
    promise st' = promise st
    /\ responseHeaders st' = responseHeaders st
    /\ piped st' = piped st
    /\ didError st' = didError st || existsb isRenderError calls.
Proof.
  induction calls as [|call calls IH]; intros st Hquiet.
  - cbn. now rewrite orb_false_r.
  - cbn [forallb] in Hquiet. apply andb_true_iff in Hquiet.
    destruct Hquiet as [Hcall Hquiet].
    cbn [fold_left existsb].
    destruct (IH (step st call) Hquiet) as [Hp [Hh [Hpipe Herr]]].
    cbv zeta. rewrite Hp, Hh, Hpipe, Herr.
    rewrite (step_pending st call Hcall).
    destruct call; cbn; repeat split; try reflexivity.
    now rewrite orb_true_r.
Qed.

End RenderCallbacks.

Lemma bot_step_wait (code : Z) (rendered : string) (st : EntryState) :
  botCallbacks code rendered st OnAllReady = respond code rendered st.
Proof. reflexivity. Qed.

Lemma bot_step_pending (code : Z) (rendered : string) (st : EntryState)
    (call : RenderCallback) :
  keeps_pending OnAllReady call = true ->
  botCallbacks code rendered st call
  = (if isRenderError call
     then match call with
          | OnError error => renderError error st
          | _ => st
          end
     else st).
Proof. destruct call; cbn; (discriminate || reflexivity). Qed.

Lemma browser_step_wait (code : Z) (rendered : string) (st : EntryState) :
  browserCallbacks code rendered st OnShellReady = respond code rendered st.
Proof. reflexivity. Qed.

Lemma browser_step_pending (code : Z) (rendered : string) (st : EntryState)
    (call : RenderCallback) :
  keeps_pending OnShellReady call = true ->
  browserCallbacks code rendered st call
  = (if isRenderError call
     then match call with
          | OnError error => renderError error st
          | _ => st
          end
     else st).
Proof. destruct call; cbn; (discriminate || reflexivity). Qed.

(** The promise of [handleRequest], whichever of the two handlers
    runs. *)
Lemma handleRequest_fold (isbot : option string -> bool) (request : Request)
    (code : Z) (responseHeaders : Headers) (rendered : string)
    (calls : list RenderCallback) :
  exists step,
    handleRequest isbot request code responseHeaders rendered calls
    = fold_left step calls (entryStart responseHeaders)
    /\ (forall st,
           step st (awaited isbot request) = respond code rendered st)
    /\ (forall st call,
           keeps_pending (awaited isbot request) call = true ->
           step st call
           = (if isRenderError call
              then match call with
                   | OnError error => renderError error st
                   | _ => st
                   end
              else st))
    /\ (forall st error,
           step st (OnShellError error) = shellError error st).
Proof.
  unfold handleRequest, awaited, handleBotRequest, handleBrowserRequest.
  destruct (isbot _).
  - exists (botCallbacks code rendered). repeat split.
    apply bot_step_pending.
  - exists (browserCallbacks code rendered). repeat split.
    apply browser_step_pending.
Qed.

Section EntryFile.

Variable isbot : option string -> bool.
Variable request : Request.
Variable responseStatusCode : Z.
Variable initialHeaders : Headers.
Variable rendered : string.

(** X17.  The promise is resolved at the first call of the awaited
    callback ([onAllReady] for a bot, [onShellReady] otherwise), if no
    shell error came before.  The response has status 500 when [onError]
    was called before that moment and the status passed in otherwise;
    its [Content-Type] is [text/html], its other headers are the ones
    passed in; errors and callbacks that come later change nothing. *)
Theorem entry_resolves_when_ready (before after : list RenderCallback)
    (Hquiet :
       forallb (keeps_pending (awaited isbot request)) before = true) :
  exists response,
    promise
      (handleRequest isbot request responseStatusCode initialHeaders
         rendered (before ++ awaited isbot request :: after))
    = Some (Normal response)
    /\ status response
       = (if existsb isRenderError before then 500%Z
          else responseStatusCode)
    /\ HeaderList.get "Content-Type" (headers response) = Some "text/html"
    /\ (forall name,
           JsString.toLowerCase name <> "content-type" ->
           HeaderList.get name (headers response)
           = HeaderList.get name initialHeaders)
    /\ body response = rendered.
Proof.
  destruct (handleRequest_fold isbot request responseStatusCode
              initialHeaders rendered
              (before ++ awaited isbot request :: after))
    as [step [-> [Hwait [Hpending Hshell]]]].
  rewrite fold_left_app. cbn [fold_left].
  destruct (@pending_prefix step (awaited isbot request) Hpending before
              (entryStart initialHeaders) Hquiet)
    as [Hp [Hh [_ Herr]]].
  set (st := fold_left step before (entryStart initialHeaders)) in *.
  rewrite Hwait. eexists. split.
  - apply (@settled_stays responseStatusCode rendered step
             (awaited isbot request) Hwait Hpending Hshell).
    cbn [respond promise]. rewrite Hp. reflexivity.
  - cbn [status headers body]. rewrite Herr, Hh.
    cbn [entryStart didError responseHeaders orb].
    repeat split.
    + apply get_set.
    + intros name Hname. now apply get_set_other.
Qed.

(** X18.  A shell error that comes before the awaited callback rejects
    the promise with that error, and no later callback turns the
    rejection into a response. *)
Theorem entry_rejects_on_shell_error (before after : list RenderCallback)
    (error : JsValue)
    (Hquiet :
       forallb (keeps_pending (awaited isbot request)) before = true) :
  promise
    (handleRequest isbot request responseStatusCode initialHeaders
       rendered (before ++ OnShellError error :: after))
  = Some (Throw error).
Proof.
  destruct (handleRequest_fold isbot request responseStatusCode
              initialHeaders rendered
              (before ++ OnShellError error :: after))
    as [step [-> [Hwait [Hpending Hshell]]]].
  rewrite fold_left_app. cbn [fold_left].
  destruct (@pending_prefix step (awaited isbot request) Hpending before
              (entryStart initialHeaders) Hquiet)
    as [Hp _].
  apply (@settled_stays responseStatusCode rendered step
             (awaited isbot request) Hwait Hpending Hshell).
  rewrite Hshell. cbn [shellError promise]. rewrite Hp. reflexivity.
Qed.

(** X19.  As long as the renderer has called neither the awaited
    callback nor [onShellError], the promise is pending and nothing has
    been piped: a bot gets no response when only the shell is ready, and
    render errors alone never settle the promise. *)
Theorem entry_waits (calls : list RenderCallback)
    (Hquiet :
       forallb (keeps_pending (awaited isbot request)) calls = true) :
  let st :=
    handleRequest isbot request responseStatusCode initialHeaders
      rendered calls in
  promise st = None /\ piped st = 0
  /\ didError st = existsb isRenderError calls.
Proof.
  destruct (handleRequest_fold isbot request responseStatusCode
              initialHeaders rendered calls)
    as [step [-> [Hwait [Hpending Hshell]]]].
  destruct (@pending_prefix step (awaited isbot request) Hpending calls
              (entryStart initialHeaders) Hquiet)
    as [Hp [_ [Hpipe Herr]]].
  cbv zeta. rewrite Hp, Hpipe, Herr. repeat split.
Qed.

End EntryFile.

(* ================================================================== *)
(** * The loader of the manual-resolve route *)
(* ================================================================== *)

Lemma number_to_string_injective (a b : nat) :
  number_to_string a = number_to_string b -> a = b.
Proof.
  unfold number_to_string. intros Heq.
  apply (f_equal DecimalString.NilEmpty.uint_of_string) in Heq.
  rewrite !DecimalString.NilEmpty.usu in Heq. injection Heq as Heq.
  apply (f_equal Nat.of_uint) in Heq.
  now rewrite !DecimalNat.Unsigned.of_to in Heq.
Qed.

Lemma NoDup_map_injective (A B : Type) (f : A -> B) (l : list A) :
  (forall a b, f a = f b -> a = b) -> NoDup l -> NoDup (map f l).
Proof.
  intros Hinj Hl. induction Hl as [|x l Hnot Hl IH]; cbn; constructor.
  - intros Hin. apply in_map_iff in Hin. destruct Hin as [y [Heq Hy]].
    apply Hinj in Heq. now subst y.
  - exact IH.
Qed.

Section ObjectAsMap.

Variable V : Type.

Lemma object_get_set (key : string) (value : V) (o : list (string * V)) :
  JsObject.get key (JsObject.set key value o) = Some value.
Proof.
  unfold JsObject.get.
  induction o as [|[k v] o IH]; cbn [JsObject.set find fst snd].
  - now rewrite String.eqb_refl.
  - destruct (k =? key) eqn:E; cbn [find fst snd]; rewrite E;
      [reflexivity|exact IH].
Qed.

Lemma object_get_set_other (key key' : string) (value : V)
    (o : list (string * V)) :
  key' <> key ->
  JsObject.get key' (JsObject.set key value o) = JsObject.get key' o.
Proof.
  intros Hdiff. unfold JsObject.get.
  assert (Hne : (key =? key') = false).
  { apply String.eqb_neq. intros Heq. now apply Hdiff. }
  induction o as [|[k v] o IH]; cbn [JsObject.set find fst snd].
  - now rewrite Hne.
  - destruct (k =? key) eqn:E; cbn [find fst snd].
    + apply String.eqb_eq in E. subst k. now rewrite Hne.
    + destruct (k =? key'); [reflexivity|exact IH].
Qed.

End ObjectAsMap.

Section ManualResolve.

Variable R : Type.

Lemma loader_step (global : option (ManualResolveCache R)) (resolvers : R) :
  manualResolveLoader global resolvers
  = ({| data_deferredId := "DEFERRED_ID";
        data_resolvedId := (10, "RESOLVED_DEFERRED_ID");
        data_id := number_to_string (nextId (cacheOrNew global));
        data_manualValue := resolvers |},
     Some {| nextId := S (nextId (cacheOrNew global));
             deferreds :=
               JsObject.set (number_to_string (nextId (cacheOrNew global)))
                 resolvers (deferreds (cacheOrNew global)) |}).
Proof. reflexivity. Qed.

Lemma manualResolveLoads_spec (calls : list R) :
  forall global,
    let start := nextId (cacheOrNew global) in
    let result := manualResolveLoads global calls in
    map (@data_id R) (fst result)
    = map number_to_string (seq start (length calls))
    /\ map (@data_manualValue R) (fst result) = calls
    /\ (forall i resolvers,
           nth_error calls i = Some resolvers ->
           JsObject.get (number_to_string (start + i))
             (deferreds (cacheOrNew (snd result)))
           = Some resolvers)
    /\ (forall key,
           (forall i, i < length calls -> key <> number_to_string (start + i)) ->
           JsObject.get key (deferreds (cacheOrNew (snd result)))
           = JsObject.get key (deferreds (cacheOrNew global))).
Proof.
  induction calls as [|r calls IH]; intros global.
  - cbn. repeat split; try reflexivity.
    intros [|i] resolvers; discriminate.
  - cbv zeta. cbn [manualResolveLoads]. rewrite loader_step.
    set (c0 := cacheOrNew global).
    set (g1 := Some {| nextId := S (nextId c0);
                       deferreds :=
                         JsObject.set (number_to_string (nextId c0)) r
                           (deferreds c0) |}).
    specialize (IH g1). cbv zeta in IH.
    destruct (manualResolveLoads g1 calls) as [others final].
    cbn [fst snd] in *.
    change (nextId (cacheOrNew g1)) with (S (nextId c0)) in IH.
    change (deferreds (cacheOrNew g1))
      with (JsObject.set (number_to_string (nextId c0)) r (deferreds c0))
      in IH.
    destruct IH as [Hids [Hvals [Hown Hframe]]].
    split; [|split; [|split]].
    + cbn [map length seq data_id]. now rewrite Hids.
    + cbn [map data_manualValue]. now rewrite Hvals.
    + intros [|i] resolvers Hnth.
      * injection Hnth as <-. rewrite Nat.add_0_r.
        rewrite Hframe; [apply object_get_set|].
        intros i _ Heq. apply number_to_string_injective in Heq. lia.
      * cbn [nth_error] in Hnth.
        replace (nextId c0 + S i) with (S (nextId c0) + i) by lia.
        now apply Hown.
    + intros key Hkey. rewrite Hframe.
      * apply object_get_set_other.
        specialize (Hkey 0 (Nat.lt_0_succ _)).
        now rewrite Nat.add_0_r in Hkey.
      * intros i Hi.
        replace (S (nextId c0) + i) with (nextId c0 + S i) by lia.
        apply Hkey. cbn [length]. lia.
Qed.

Lemma manualResolveLoads_defined (calls : list R) :
  forall global,
    global <> None \/ calls <> [] ->
    snd (manualResolveLoads global calls) <> None.
Proof.
  induction calls as [|r calls IH]; intros global Hsome.
  - cbn. destruct Hsome as [H|H]; [exact H|now destruct H].
  - cbn [manualResolveLoads]. rewrite loader_step.
    match goal with
    | |- context [manualResolveLoads ?g calls] =>
        specialize (IH g); destruct (manualResolveLoads g calls)
    end.
    cbn [snd] in *. apply IH. left. discriminate.
Qed.

(** X20.  Starting from a process in which the cache does not exist yet,
    the loader gives the requests the ids 1, 2, 3, ... in turn, no two
    alike, and after any number of requests the cache holds, under the id
    of each request, the resolvers of the promise that request got as
    its [manualValue]. *)
Theorem manual_ids_lead_back (calls : list R) :
  let result := manualResolveLoads None calls in
  map (@data_id R) (fst result)
  = map number_to_string (seq 1 (length calls))
  /\ NoDup (map (@data_id R) (fst result))
  /\ forall i data,
      nth_error (fst result) i = Some data ->
      nth_error calls i = Some (data_manualValue data)
      /\ exists cache,
          snd result = Some cache
          /\ JsObject.get (data_id data) (deferreds cache)
             = Some (data_manualValue data).
Proof.
  cbv zeta.
  destruct (manualResolveLoads_spec calls None)
    as [Hids [Hvals [Hown _]]].
  cbv zeta in Hids, Hown.
  change (nextId (cacheOrNew (@None (ManualResolveCache R)))) with 1
    in Hids, Hown.
  split; [exact Hids|]. split.
  - rewrite Hids. apply NoDup_map_injective.
    + apply number_to_string_injective.
    + apply seq_NoDup.
  - intros i data Hnth.
    assert (Hcall : nth_error calls i = Some (data_manualValue data)).
    { rewrite <- Hvals. now apply map_nth_error. }
    split; [exact Hcall|].
    assert (Hid : data_id data = number_to_string (1 + i)).
    { apply (map_nth_error (@data_id R)) in Hnth.
      rewrite Hids in Hnth. rewrite nth_error_map in Hnth.
      destruct (nth_error (seq 1 (length calls)) i) as [n|] eqn:En;
        [|discriminate].
      injection Hnth as <-. f_equal.
      assert (Hlt : i < length (seq 1 (length calls))).
      { apply nth_error_Some. now rewrite En. }
      rewrite length_seq in Hlt.
      apply (nth_error_nth _ _ 0) in En. rewrite seq_nth in En; lia. }
    assert (Hdefined : snd (manualResolveLoads None calls) <> None).
    { apply manualResolveLoads_defined. right.
      intros ->. now destruct i. }
    destruct (snd (manualResolveLoads None calls)) as [cache|] eqn:Efinal;
      [|now destruct Hdefined].
    exists cache. split; [reflexivity|].
    rewrite Hid. exact (Hown i _ Hcall).
Qed.

End ManualResolve.

(* ================================================================== *)
(** * Concrete runs *)
(* ================================================================== *)

(** The handler of [exampleRequest] sees [q] and the kept [index], and
    neither [_data] nor the empty [index]. *)
Example loader_sees_stripped_query :
  @callRouteLoader webResponses [] "routes/projects" (Some echoQuery) []
    exampleRequest None
  = Normal (@json webResponses (JData "q&index")).
Proof. reflexivity. Qed.

(** A [POST] to a route without an action. *)
Example post_without_action :
  @callRouteAction webResponses [] "routes/projects" None []
    exampleRequest None
  = Throw
      (JErrorResponse 405 "Method Not Allowed"
         (JError
            ("You made a POST request to " ++ dquote ++ "/projects" ++ dquote
               ++ " but did not provide an `action` for route " ++ dquote
               ++ "routes/projects" ++ dquote
               ++ ", so there is no way to handle the request."))
         true).
Proof. reflexivity. Qed.


Lemma thrown_redirect_is_returned_witness :
  @callRouteAction webResponses [] "routes/projects" (Some throwsRedirect)
    [] exampleRequest (Some true)
  = Normal seeOther
  /\ @callRouteLoader webResponses [] "routes/projects"
       (Some throwsRedirect) [] exampleRequest (Some true)
     = Normal seeOther.
Proof.
  exact (@thrown_redirect_is_returned webResponses [] "routes/projects" []
           exampleRequest throwsRedirect (Some true) seeOther
           eq_refl eq_refl).
Defined.

Lemma undefined_result_is_an_error_witness :
  exists msg,
    @callRouteLoaderRR webResponses [] returnsNothing [] exampleRequest
      "routes/projects"
    = Throw (JError msg)
    /\ JsString.includes "routes/projects" msg = true
    /\ JsString.includes "`loader`" msg = true.
Proof.
  exact (proj2 (proj2 (proj2
    (@undefined_result_is_an_error webResponses [] "routes/projects" []
       exampleRequest returnsNothing None eq_refl)))).
Defined.

Lemma defined_result_becomes_response_witness :
  @callRouteAction webResponses [] "routes/projects" (Some echoQuery) []
    exampleRequest None
  = Normal (@json webResponses (JData "q&index"))
  /\ @callRouteLoader webResponses [] "routes/projects" (Some echoQuery) []
       exampleRequest None
     = Normal (@json webResponses (JData "q&index"))
  /\ @callRouteActionRR webResponses [] echoQuery [] exampleRequest
       "routes/projects"
     = Normal (@json webResponses (JData "q&index"))
  /\ @callRouteLoaderRR webResponses [] echoQuery [] exampleRequest
       "routes/projects"
     = Normal (@json webResponses (JData "q&index")).
Proof.
  refine (@defined_result_becomes_response webResponses []
            "routes/projects" [] exampleRequest echoQuery None
            (JData "q&index") eq_refl _).
  discriminate.
Defined.

Lemma rr_throws_propagate_witness :
  @callRouteActionRR webResponses [] throwsTeapot [] exampleRequest
    "routes/projects"
  = Throw (JResponse teapot)
  /\ @callRouteLoaderRR webResponses [] throwsTeapot [] exampleRequest
       "routes/projects"
     = Throw (JResponse teapot).
Proof.
  exact (@rr_throws_propagate webResponses [] "routes/projects" []
           exampleRequest throwsTeapot (JResponse teapot) eq_refl).
Defined.

Lemma handler_gets_normalized_request_witness :
  @callRouteLoader webResponses [] "routes/projects" (Some echoQuery) []
    exampleRequest None
  = @callRouteLoader webResponses [] "routes/projects"
      (Some (fun _ => Normal (JData "q&index"))) [] exampleRequest None.
Proof.
  exact (proj1 (proj2
    (proj2 (proj2 (proj2 (proj2 (proj2 (proj2
       (@handler_gets_normalized_request webResponses [] "routes/projects"
          [] exampleRequest None))))))
       echoQuery (fun _ => Normal (JData "q&index")) eq_refl))).
Defined.

Lemma extractData_by_content_type_witness :
  @extractData opaqueJson (@json webResponses JNull) = Normal (JData "null")
  /\ @extractData opaqueJson teapot = Normal (JString "short and stout").
Proof.
  split.
  - refine (proj1 (@extractData_by_content_type opaqueJson
                     (@json webResponses JNull))
              "application/json; charset=utf-8" eq_refl _).
    exists "", "; charset=utf-8". repeat split.
  - refine (proj2 (@extractData_by_content_type opaqueJson teapot) _).
    intros contentType [= <-] Htoken.
    apply test_iff_token in Htoken. discriminate Htoken.
Defined.

Lemma abort_rejects_all_pending_witness :
  let s' := Assembler.run (repeat Assembler.Tick 2) streamingExample in
  Assembler.phase s' = Assembler.Completed
  /\ Assembler.transport_open s' = false
  /\ Assembler.pending s' = []
  /\ Assembler.chunks s'
     = [Assembler.InitialShell;
        Assembler.RejectedValue "user" Assembler.Aborted;
        Assembler.RejectedValue "comments" Assembler.Aborted]
  /\ length (Assembler.aborted_chunks (Assembler.pending streamingExample))
     = 2
  /\ (forall fp,
         In fp (Assembler.pending streamingExample) ->
         In (Assembler.RejectedValue fp Assembler.Aborted)
            (Assembler.chunks s'))
  /\ Assembler.elapsed s' = 3.
Proof.
  refine (@abort_rejects_all_pending streamingExample 2
            eq_refl eq_refl _ eq_refl _).
  - repeat constructor; cbn; intuition discriminate.
  - cbn. lia.
Defined.

(** ** Runs of the further properties *)

Lemma legacy_rethrows_plain_errors_witness :
  @callRouteAction webResponses [] "routes/projects" (Some throwsError) []
    exampleRequest (Some true)
  = Throw (JError "boom")
  /\ @callRouteLoader webResponses [] "routes/projects" (Some throwsError)
       [] exampleRequest (Some true)
     = Throw (JError "boom").
Proof.
  exact (@legacy_rethrows_plain_errors webResponses [] "routes/projects" []
           exampleRequest throwsError (Some true) (JError "boom")
           eq_refl eq_refl).
Defined.

Lemma legacy_agrees_with_rr_witness :
  @callRouteAction webResponses [] "routes/projects" (Some echoQuery) []
    exampleRequest (Some true)
  = @callRouteActionRR webResponses [] echoQuery [] exampleRequest
      "routes/projects"
  /\ @callRouteLoader webResponses [] "routes/projects" (Some echoQuery) []
       exampleRequest (Some true)
     = @callRouteLoaderRR webResponses [] echoQuery [] exampleRequest
         "routes/projects".
Proof.
  refine (@legacy_agrees_with_rr webResponses [] "routes/projects" []
            exampleRequest echoQuery (Some true) _).
  intros r Hthrow. discriminate Hthrow.
Defined.

Lemma thrown_response_was_caught_witness :
  flag_set (Some true) = true
  /\ exists h r0,
      Some throwsTeapot = Some h
      /\ h (handlerArgs [] [] exampleRequest) = Throw (JResponse r0)
      /\ @isRedirectResponse webResponses r0 = false
      /\ headersImmutable r0 = false
      /\ set_header "X-Remix-Catch" "yes" teapot
         = set_header "X-Remix-Catch" "yes" r0.
Proof.
  exact (@thrown_response_was_caught webResponses [] "routes/projects" []
           exampleRequest (Some throwsTeapot) (Some true)
           (set_header "X-Remix-Catch" "yes" teapot)
           (or_introl eq_refl)).
Defined.

Lemma caught_response_keeps_rest_witness :
  exists tagged,
    @callRouteAction webResponses [] "routes/projects" (Some throwsTeapot)
      [] exampleRequest None
    = Normal tagged
    /\ @callRouteLoader webResponses [] "routes/projects"
         (Some throwsTeapot) [] exampleRequest None
       = Normal tagged
    /\ status tagged = 418%Z
    /\ statusText tagged = "I'm a teapot"
    /\ body tagged = "short and stout"
    /\ HeaderList.get "X-Remix-Catch" (headers tagged) = Some "yes"
    /\ forall name,
        JsString.toLowerCase name <> "x-remix-catch" ->
        HeaderList.get name (headers tagged)
        = HeaderList.get name (headers teapot).
Proof.
  exact (@caught_response_keeps_rest webResponses [] "routes/projects" []
           exampleRequest throwsTeapot None teapot eq_refl eq_refl eq_refl).
Defined.

Lemma extractData_ignores_tag_witness :
  (returned <-
     @callRouteLoader webResponses [] "routes/projects" (Some throwsTeapot)
       [] exampleRequest None ;;
   @extractData opaqueJson returned)
  = Normal (JString "short and stout").
Proof.
  exact (proj2
    (@extractData_ignores_tag webResponses [] "routes/projects" []
       exampleRequest opaqueJson throwsTeapot None teapot
       eq_refl eq_refl eq_refl eq_refl)).
Defined.

Lemma wrapped_result_round_trip_witness :
  (returned <-
     @callRouteLoaderRR webResponses [] echoQuery [] exampleRequest
       "routes/projects" ;;
   @extractData opaqueJson returned)
  = Normal (JData "q&index").
Proof.
  refine (proj2 (proj2 (proj2
    (@wrapped_result_round_trip webResponses [] "routes/projects" []
       exampleRequest opaqueJson echoQuery None (JData "q&index")
       eq_refl _ eq_refl _)))).
  - discriminate.
  - exists "application/json; charset=utf-8". split; [reflexivity|].
    exists "", "; charset=utf-8". repeat split.
Defined.

Lemma clean_request_unchanged_witness :
  searchParams (url (stripDataParam (stripIndexParam cleanRequest)))
  = [("q", "1"); ("page", "2")].
Proof.
  exact (proj1 (@clean_request_unchanged cleanRequest eq_refl eq_refl)).
Defined.

Lemma extractData_needs_substring_witness :
  @extractData opaqueJson vendorJson = Normal (JString "{}").
Proof.
  refine (@extractData_needs_substring opaqueJson vendorJson _).
  intros contentType [= <-]. reflexivity.
Defined.

Lemma document_split_at_first_tag_witness :
  exists before,
    criticalHTML streamedDocument = before ++ "</html>"
    /\ streamedDocument
       = before ++ "</html>" ++ deferredHTML streamedDocument
    /\ forall before' after',
        streamedDocument = before' ++ "</html>" ++ after' ->
        String.length before <= String.length before'.
Proof.
  exact (@document_split_at_first_tag streamedDocument eq_refl).
Defined.

Lemma document_split_without_tag_witness :
  criticalHTML "plain text" = "plain "
  /\ deferredHTML "plain text" = "text".
Proof.
  exact (@document_split_without_tag "plain text" eq_refl).
Defined.

Lemma assertConsole_reports_witness :
  exists lines,
    @assertConsole sampleStringify collectedMessages
    = Throw (JError ("Unexpected console.log's:" ++ newline ++ lines))
    /\ JsString.includes
         (@unexpected_log sampleStringify [JString "oops"]) lines = true.
Proof.
  refine (@assertConsole_reports sampleStringify collectedMessages
            [JString "oops"; JData "1"] _ _).
  - right. left. reflexivity.
  - reflexivity.
Defined.

Lemma entry_resolves_when_ready_witness :
  exists response,
    promise
      (handleRequest sampleIsbot crawlerRequest 200 [("Vary", "Cookie")]
         "<html></html>"
         ([OnShellReady; OnError (JError "aborted")]
            ++ OnAllReady :: [OnError (JError "late")]))
    = Some (Normal response)
    /\ status response = 500%Z
    /\ HeaderList.get "Content-Type" (headers response) = Some "text/html"
    /\ (forall name,
           JsString.toLowerCase name <> "content-type" ->
           HeaderList.get name (headers response)
           = HeaderList.get name [("Vary", "Cookie")])
    /\ body response = "<html></html>".
Proof.
  exact (@entry_resolves_when_ready sampleIsbot crawlerRequest 200
           [("Vary", "Cookie")] "<html></html>"
           [OnShellReady; OnError (JError "aborted")]
           [OnError (JError "late")] eq_refl).
Defined.

Lemma entry_rejects_on_shell_error_witness :
  promise
    (handleRequest sampleIsbot exampleRequest 200 [] "<html></html>"
       ([OnError (JError "first")]
          ++ OnShellError (JError "shell") :: [OnShellReady]))
  = Some (Throw (JError "shell")).
Proof.
  exact (@entry_rejects_on_shell_error sampleIsbot exampleRequest 200 []
           "<html></html>" [OnError (JError "first")] [OnShellReady]
           (JError "shell") eq_refl).
Defined.

Lemma entry_waits_witness :
  let st :=
    handleRequest sampleIsbot crawlerRequest 200 [] "<html></html>"
      [OnShellReady; OnError (JError "aborted")] in
  promise st = None /\ piped st = 0 /\ didError st = true.
Proof.
  exact (@entry_waits sampleIsbot crawlerRequest 200 [] "<html></html>"
           [OnShellReady; OnError (JError "aborted")] eq_refl).
Defined.
